(** * mlpack: linear layer, multihead attention, distributions and the
      AdaBoost probability-prediction binding

    A shallow embedding of

    - [methods/ann/layer/linear_impl.hpp] (the [LinearType] layer),
    - [methods/adaboost/adaboost_predict_proba_main.cpp],
    - the distribution and attention classes exercised by
      [tests/distribution_test.cpp] and [tests/layer/multihead_attention.cpp].

    Armadillo matrices are dense and column-major; a matrix either owns its
    memory or is a view onto memory handed over by the caller.  Element
    arithmetic is kept abstract for the layers (the code is a template over
    the element type) and is exact rational arithmetic for the
    distributions. *)

From Stdlib Require Import ZArith NArith QArith Qcanon String DecimalString.
From stdpp Require Import base list numbers gmap strings.

Local Open Scope string_scope.
Local Open Scope nat_scope.

(** ** Exceptions *)

(** What a call can end with instead of a value: Armadillo's size and bounds
    checks throw [std::logic_error]; [Log::Fatal] stops the program; a view
    onto caller memory can reach outside what the caller handed over. *)
Inductive exn : Type :=
| LogicError (what : string)
| Fatal (msg : string)
| BadAccess (addr : nat).

Inductive result (A : Type) : Type :=
| Ok (a : A)
| Throw (e : exn).
Arguments Ok {A} a.
Arguments Throw {A} e.

#[export] Instance result_ret : MRet result := λ A a, Ok a.
#[export] Instance result_bind : MBind result := λ A B f m,
  match m with
  | Ok a => f a
  | Throw e => Throw e
  end.

Definition is_ok {A} (r : result A) : bool :=
  match r with Ok _ => true | Throw _ => false end.

(** ** [size_t] arithmetic *)

Module SizeT.
Definition modulus : Z := 2 ^ 64.

(** The value a [size_t] expression has after wrap-around. *)
Definition wrap (z : Z) : Z := z mod modulus.

(** A wrapped value as a length. *)
Definition to_nat (z : Z) : nat := Z.to_nat (wrap z).

Definition fits (n : nat) : Prop := (Z.of_nat n < modulus)%Z.

Lemma wrap_small z : (0 ≤ z < modulus)%Z → wrap z = z.
Proof. intros Hz. unfold wrap. apply Z.mod_small. exact Hz. Qed.

Lemma to_nat_fits n : fits n → to_nat (Z.of_nat n) = n.
Proof.
  intros Hn. unfold to_nat. rewrite wrap_small.
  - apply Nat2Z.id.
  - split; [apply Nat2Z.is_nonneg | exact Hn].
Qed.

Lemma wrap_pred_zero : wrap (0 - 1) = (modulus - 1)%Z.
Proof. reflexivity. Qed.
End SizeT.

(** ** Element arithmetic *)

(** The operations of the element type ([double], [float]) the matrix code
    uses.  No law is assumed of them. *)
Class Elem (E : Type) : Type := {
  zero : E;
  add : E → E → E;
  mul : E → E → E
}.

(** ** Dense column-major matrices *)

Section Arma.
Context {E : Type} `{Elem E}.

(** [arma::Mat]: element [(i, j)] lives at [i + j * n_rows]. *)
Record Mat : Type := mkMat {
  n_rows : nat;
  n_cols : nat;
  mem : list E
}.

Definition n_elem (m : Mat) : nat := n_rows m * n_cols m.

Definition wf (m : Mat) : Prop := length (mem m) = n_elem m.

(** [m(i, j)] without the bounds check. *)
Definition at_ (m : Mat) (i j : nat) : E :=
  default zero (mem m !! (i + j * n_rows m)).

(** The matrix of the given size whose element [(i, j)] is [f i j]. *)
Definition generate (r c : nat) (f : nat → nat → E) : Mat :=
  mkMat r c (flat_map (λ j, (λ i, f i j) <$> seq 0 r) (seq 0 c)).

(** Accumulation in index order, as a plain loop does it. *)
Definition accu_upto (n : nat) (f : nat → E) : E :=
  foldl (λ acc k, add acc (f k)) zero (seq 0 n).

Lemma accu_upto_ext n f g :
  (∀ k, k < n → f k = g k) → accu_upto n f = accu_upto n g.
Proof.
  intros Hfg. unfold accu_upto.
  assert (Hs : ∀ k, k ∈ seq 0 n → f k = g k).
  { intros k Hk. apply Hfg. apply elem_of_seq in Hk. lia. }
  revert Hs. generalize zero. generalize (seq 0 n).
  induction l as [|k l IH]; intros z Hs; simpl; [reflexivity|].
  rewrite (Hs k) by (left). apply IH. intros k' Hk'. apply Hs. by right.
Qed.

Lemma length_columns (r s c : nat) (f : nat → nat → E) :
  length (flat_map (λ j, (λ i, f i j) <$> seq 0 r) (seq s c)) = c * r.
Proof.
  revert s. induction c as [|c IH]; intros s; simpl; [reflexivity|].
  rewrite length_app, length_fmap, length_seq, IH. reflexivity.
Qed.

Lemma lookup_columns (r s c : nat) (f : nat → nat → E) i j :
  i < r → j < c →
  flat_map (λ j, (λ i, f i j) <$> seq 0 r) (seq s c) !! (i + j * r)
  = Some (f i (s + j)).
Proof.
  intros Hi. revert s j. induction c as [|c IH]; intros s j Hj; [lia|].
  simpl. destruct j as [|j].
  - rewrite lookup_app_l by (rewrite length_fmap, length_seq; lia).
    rewrite list_lookup_fmap, lookup_seq_lt by lia.
    simpl. do 2 f_equal; lia.
  - rewrite lookup_app_r by (rewrite length_fmap, length_seq; lia).
    rewrite length_fmap, length_seq.
    replace (i + S j * r - r) with (i + j * r) by lia.
    rewrite IH by lia. do 2 f_equal; lia.
Qed.

Lemma generate_wf r c f : wf (generate r c f).
Proof. unfold wf, n_elem, generate. simpl. rewrite length_columns. lia. Qed.

Lemma generate_at r c f i j :
  i < r → j < c → at_ (generate r c f) i j = f i j.
Proof.
  intros Hi Hj. unfold at_, generate. simpl.
  rewrite lookup_columns by assumption. reflexivity.
Qed.

Lemma generate_rows r c f : n_rows (generate r c f) = r.
Proof. reflexivity. Qed.

Lemma generate_cols r c f : n_cols (generate r c f) = c.
Proof. reflexivity. Qed.

(** *** Operations *)

(** [A * B]. *)
Definition mat_mul (A B : Mat) : result Mat :=
  if decide (n_cols A = n_rows B) then
    Ok (generate (n_rows A) (n_cols B)
          (λ i j, accu_upto (n_cols A) (λ k, mul (at_ A i k) (at_ B k j))))
  else Throw (LogicError "matrix multiplication: incompatible matrix dimensions").

(** [A.t()]. *)
Definition trans (A : Mat) : Mat :=
  generate (n_cols A) (n_rows A) (λ i j, at_ A j i).

(** [A.each_col() += v]. *)
Definition each_col_plus (A v : Mat) : result Mat :=
  if decide (n_rows v = n_rows A ∧ n_cols v = 1) then
    Ok (generate (n_rows A) (n_cols A) (λ i j, add (at_ A i j) (at_ v i 0)))
  else Throw (LogicError "each_col(): incompatible size").

(** [arma::vectorise(A)]: the memory is kept, read as one column. *)
Definition vectorise (A : Mat) : Mat :=
  mkMat (n_elem A) 1 (mem A).

(** [arma::sum(A, 1)]: the column of row sums. *)
Definition sum_rows (A : Mat) : Mat :=
  generate (n_rows A) 1 (λ i _, accu_upto (n_cols A) (λ j, at_ A i j)).

(** [G.submat(r1, c1, r2, c2) = X].  The corner indices are [size_t] values
    as the caller computed them. *)
Definition submat_assign (G : Mat) (r1 c1 r2 c2 : Z) (X : Mat) : result Mat :=
  if decide (r1 ≤ r2 ∧ c1 ≤ c2 ∧
             r2 < Z.of_nat (n_rows G) ∧ c2 < Z.of_nat (n_cols G))%Z then
    let '(r1, c1, r2, c2) :=
      (Z.to_nat r1, Z.to_nat c1, Z.to_nat r2, Z.to_nat c2) in
    if decide (n_rows X = r2 - r1 + 1 ∧ n_cols X = c2 - c1 + 1) then
      Ok (generate (n_rows G) (n_cols G)
            (λ i j, if decide (r1 ≤ i ≤ r2 ∧ c1 ≤ j ≤ c2)
                    then at_ X (i - r1) (j - c1)
                    else at_ G i j))
    else Throw (LogicError "copy into submatrix: incompatible matrix dimensions")
  else Throw (LogicError "Mat::submat(): indices out of bounds or incorrectly used").

(** *** Matrices over memory of the caller *)

(** [Mat(ptr, rows, cols, false, false)]: no copy is made, the matrix reads
    and writes the caller's memory.  Memory is a list of cells and a pointer
    is an index into it. *)
Record AuxMat : Type := mkAux {
  aux_mem : nat;
  aux_n_rows : nat;
  aux_n_cols : nat
}.

Definition aux_n_elem (a : AuxMat) : nat := aux_n_rows a * aux_n_cols a.

(** Element [(i, j)] of the view, in the memory as it is now. *)
Definition aux_at (heap : list E) (a : AuxMat) (i j : nat) : E :=
  default zero (heap !! (aux_mem a + (i + j * aux_n_rows a))).

(** A write to element [(i, j)] through the view. *)
Definition aux_set (heap : list E) (a : AuxMat) (i j : nat) (x : E) : list E :=
  <[aux_mem a + (i + j * aux_n_rows a) := x]> heap.

(** The contents of the view, in the memory as it is now. *)
Definition deref (heap : list E) (a : AuxMat) : result Mat :=
  if decide (aux_mem a + aux_n_elem a ≤ length heap) then
    Ok (mkMat (aux_n_rows a) (aux_n_cols a)
          (take (aux_n_elem a) (drop (aux_mem a) heap)))
  else Throw (BadAccess (aux_mem a + aux_n_elem a)).

Lemma deref_at heap a M i j :
  deref heap a = Ok M → i < aux_n_rows a → j < aux_n_cols a →
  at_ M i j = aux_at heap a i j.
Proof.
  unfold deref. intros HM Hi Hj. case_decide as Hlen; [|discriminate].
  injection HM as <-. unfold at_, aux_at, aux_n_elem in *. simpl.
  rewrite lookup_take, lookup_drop. case_decide as Hlt; [reflexivity|].
  exfalso. apply Hlt. nia.
Qed.

Lemma deref_shape heap a M :
  deref heap a = Ok M →
  n_rows M = aux_n_rows a ∧ n_cols M = aux_n_cols a ∧ wf M.
Proof.
  unfold deref. intros HM. case_decide as Hlen; [|discriminate].
  injection HM as <-. simpl. repeat split.
  unfold wf, n_elem, aux_n_elem in *. simpl.
  rewrite length_take, length_drop. lia.
Qed.

End Arma.

Arguments Mat E : clear implicits.


(** ** The linear layer ([linear_impl.hpp]) *)

Module Linear.
Section Layer.
Context {E : Type} `{Elem E}.

(** A matrix member of the layer: it owns its memory until [SetWeights]
    makes it a view onto the caller's buffer. *)
Inductive Member : Type :=
| Owned (m : Mat E)
| Borrowed (a : AuxMat).

Definition member_n_rows (s : Member) : nat :=
  match s with Owned m => n_rows m | Borrowed a => aux_n_rows a end.

Definition member_n_cols (s : Member) : nat :=
  match s with Owned m => n_cols m | Borrowed a => aux_n_cols a end.

(** The [n_elem] field: the product of the two sizes as [size_t]. *)
Definition member_n_elem (s : Member) : Z :=
  SizeT.wrap (Z.of_nat (member_n_rows s) * Z.of_nat (member_n_cols s)).

Definition load (heap : list E) (s : Member) : result (Mat E) :=
  match s with
  | Owned m => Ok m
  | Borrowed a => deref heap a
  end.

(** [RegularizerType]: its [Evaluate(weights, gradient)] updates the gradient
    in place. *)
Record RegularizerType : Type := {
  Evaluate : Mat E → Mat E → Mat E
}.

Record LinearType : Type := mkLinear {
  inSize : nat;
  outSize : nat;
  regularizer : RegularizerType;
  weights : Member;
  weight : Member;
  bias : Member
}.

(** [LinearType()]. *)
Definition LinearType_default (r : RegularizerType) : LinearType :=
  mkLinear 0 0 r (Owned (mkMat 0 0 [])) (Owned (mkMat 0 0 []))
    (Owned (mkMat 0 0 [])).

(** Each member is assigned a temporary matrix built on [weightsPtr] with
    [copy_aux_mem = false]; the assignment moves the temporary, so the
    member takes over its pointer and sizes. *)
Definition SetWeights (weightsPtr : nat) (L : LinearType) : LinearType :=
  let weights' :=
    Borrowed (mkAux weightsPtr
                (SizeT.to_nat (Z.of_nat (outSize L) * Z.of_nat (inSize L)
                               + Z.of_nat (outSize L))) 1) in
  let weight' := Borrowed (mkAux weightsPtr (outSize L) (inSize L)) in
  let bias' :=
    Borrowed (mkAux (weightsPtr + Z.to_nat (member_n_elem weight'))
                (outSize L) 1) in
  mkLinear (inSize L) (outSize L) (regularizer L) weights' weight' bias'.

Definition Forward (heap : list E) (L : LinearType) (input : Mat E)
  : result (Mat E) :=
  W ← load heap (weight L);
  b ← load heap (bias L);
  output ← mat_mul W input;
  each_col_plus output b.

Definition Backward (heap : list E) (L : LinearType) (input gy : Mat E)
  : result (Mat E) :=
  W ← load heap (weight L);
  mat_mul (trans W) gy.

Definition Gradient (heap : list E) (L : LinearType)
    (input error gradient : Mat E) : result (Mat E) :=
  product ← mat_mul error (trans input);
  gradient ← submat_assign gradient 0 0
               (SizeT.wrap (member_n_elem (weight L) - 1)) 0
               (vectorise product);
  gradient ← submat_assign gradient (member_n_elem (weight L)) 0
               (SizeT.wrap (Z.of_nat (n_elem gradient) - 1)) 0
               (sum_rows error);
  W ← load heap (weights L);
  Ok (Evaluate (regularizer L) W gradient).

(** [Parameters()] hands out the [weights] member. *)
Definition Parameters (L : LinearType) : Member := weights L.

(** A write to element [(i, j)] through a member. *)
Definition member_set (heap : list E) (s : Member) (i j : nat) (x : E)
  : list E :=
  match s with
  | Owned _ => heap
  | Borrowed a => aux_set heap a i j x
  end.

(** Element [(i, j)] of a member, in the memory as it is now. *)
Definition member_at (heap : list E) (s : Member) (i j : nat) : E :=
  match s with
  | Owned m => at_ m i j
  | Borrowed a => aux_at heap a i j
  end.

(** The sizes [SetWeights] gives the weight matrix and the bias. *)
Definition shaped (L : LinearType) : Prop :=
  member_n_rows (weight L) = outSize L ∧
  member_n_cols (weight L) = inSize L ∧
  member_n_rows (bias L) = outSize L ∧
  member_n_cols (bias L) = 1.

(** The layer that holds a copy of the parameters [ps] instead of views. *)
Definition owning (ps : list E) (L : LinearType) : LinearType :=
  let n := outSize L * inSize L in
  mkLinear (inSize L) (outSize L) (regularizer L)
    (Owned (mkMat (n + outSize L) 1 ps))
    (Owned (mkMat (outSize L) (inSize L) (take n ps)))
    (Owned (mkMat (outSize L) 1 (take (outSize L) (drop n ps)))).

End Layer.
Arguments LinearType E : clear implicits.
Arguments RegularizerType E : clear implicits.
Arguments Member E : clear implicits.
End Linear.

(** ** Facts about the matrix operations *)

Section ArmaFacts.
Context {E : Type} `{Elem E}.
Implicit Types A B G X v : Mat E.

Lemma mat_mul_ok A B :
  n_cols A = n_rows B →
  mat_mul A B =
  Ok (generate (n_rows A) (n_cols B)
        (λ i j, accu_upto (n_cols A) (λ k, mul (at_ A i k) (at_ B k j)))).
Proof. intros Hd. unfold mat_mul. rewrite decide_True by assumption. reflexivity. Qed.

Lemma mat_mul_mismatch A B :
  n_cols A ≠ n_rows B → is_ok (mat_mul A B) = false.
Proof. intros Hd. unfold mat_mul. rewrite decide_False by assumption. reflexivity. Qed.

Lemma trans_at A i j :
  i < n_cols A → j < n_rows A → at_ (trans A) i j = at_ A j i.
Proof. intros Hi Hj. unfold trans. rewrite generate_at by assumption. reflexivity. Qed.

Lemma vectorise_at A i j :
  at_ (vectorise A) (i + j * n_rows A) 0 = at_ A i j.
Proof. unfold at_, vectorise. simpl. rewrite Nat.add_0_r. reflexivity. Qed.

Lemma each_col_plus_ok A v :
  n_rows v = n_rows A → n_cols v = 1 →
  each_col_plus A v =
  Ok (generate (n_rows A) (n_cols A) (λ i j, add (at_ A i j) (at_ v i 0))).
Proof.
  intros Hr Hc. unfold each_col_plus. rewrite decide_True by done. reflexivity.
Qed.

Lemma submat_assign_ok G (r1 c1 r2 c2 : nat) X :
  r1 ≤ r2 → c1 ≤ c2 → r2 < n_rows G → c2 < n_cols G →
  n_rows X = r2 - r1 + 1 → n_cols X = c2 - c1 + 1 →
  submat_assign G (Z.of_nat r1) (Z.of_nat c1) (Z.of_nat r2) (Z.of_nat c2) X =
  Ok (generate (n_rows G) (n_cols G)
        (λ i j, if decide (r1 ≤ i ≤ r2 ∧ c1 ≤ j ≤ c2)
                then at_ X (i - r1) (j - c1)
                else at_ G i j)).
Proof.
  intros Hr Hc Hr2 Hc2 HXr HXc. unfold submat_assign.
  rewrite decide_True by lia. rewrite !Nat2Z.id.
  rewrite decide_True by done. reflexivity.
Qed.

(** An empty row range whose upper corner came from [0 - 1] is refused. *)
Lemma submat_assign_wrapped G r1 c1 c2 X :
  SizeT.fits (n_rows G) →
  is_ok (submat_assign G r1 c1 (SizeT.wrap (0 - 1)) c2 X) = false.
Proof.
  intros Hfit. unfold submat_assign. rewrite SizeT.wrap_pred_zero.
  rewrite decide_False; [reflexivity|].
  unfold SizeT.fits in Hfit. lia.
Qed.

End ArmaFacts.

(** ** The linear layer: what the three passes compute *)

Section LinearFacts.
Context {E : Type} `{Elem E}.
Implicit Types (L : Linear.LinearType E) (heap : list E).

Lemma load_at heap (s : Linear.Member E) M i j :
  Linear.load heap s = Ok M →
  i < Linear.member_n_rows s → j < Linear.member_n_cols s →
  at_ M i j = Linear.member_at heap s i j.
Proof.
  destruct s as [m|a]; simpl; intros HM Hi Hj.
  - injection HM as <-. reflexivity.
  - eapply deref_at; eassumption.
Qed.

Lemma load_shape heap (s : Linear.Member E) M :
  Linear.load heap s = Ok M →
  n_rows M = Linear.member_n_rows s ∧ n_cols M = Linear.member_n_cols s.
Proof.
  destruct s as [m|a]; simpl; intros HM.
  - injection HM as <-. done.
  - apply deref_shape in HM. tauto.
Qed.

Lemma is_ok_inv {A} (r : result A) : is_ok r = true → ∃ a, r = Ok a.
Proof. destruct r as [a|e]; [eauto | discriminate]. Qed.

(** C2.  For a layer whose weight matrix ([outSize] by [inSize]) and bias
    ([outSize] by 1) are readable, and an input with [inSize] rows and any
    number of batch columns, [Forward] returns an [outSize]-row output with
    one column per input column, and every element [(i, j)] of it is row [i]
    of the weights times column [j] of the input, plus bias element [i]. *)
Theorem Forward_affine heap L (input : Mat E) :
  Linear.shaped L →
  is_ok (Linear.load heap (Linear.weight L)) = true →
  is_ok (Linear.load heap (Linear.bias L)) = true →
  n_rows input = Linear.inSize L →
  ∃ output,
    Linear.Forward heap L input = Ok output ∧
    n_rows output = Linear.outSize L ∧
    n_cols output = n_cols input ∧
    wf output ∧
    ∀ i j, i < Linear.outSize L → j < n_cols input →
      at_ output i j =
      add (accu_upto (Linear.inSize L)
             (λ k, mul (Linear.member_at heap (Linear.weight L) i k)
                       (at_ input k j)))
          (Linear.member_at heap (Linear.bias L) i 0).
Proof.
  intros (HWr & HWc & Hbr & Hbc) HW Hb Hin.
  apply is_ok_inv in HW as [W HW]. apply is_ok_inv in Hb as [b Hb].
  destruct (load_shape _ _ _ HW) as [HWr' HWc'].
  destruct (load_shape _ _ _ Hb) as [Hbr' Hbc'].
  unfold Linear.Forward. rewrite HW, Hb. simpl.
  rewrite mat_mul_ok by congruence. simpl.
  rewrite each_col_plus_ok by (simpl; congruence). simpl.
  eexists. split; [reflexivity|].
  split; [simpl; congruence|]. split; [reflexivity|].
  split; [apply generate_wf|].
  intros i j Hi Hj.
  rewrite generate_at by (simpl; lia).
  rewrite generate_at by lia.
  rewrite HWc', HWc. f_equal.
  - apply accu_upto_ext. intros k Hk. f_equal.
    apply (load_at heap _ W); [assumption | lia | lia].
  - apply (load_at heap _ b); [assumption | lia | lia].
Qed.

(** C3.  For a layer whose weight matrix is readable and an output gradient
    [gy] with [outSize] rows, [Backward] returns an [inSize]-row matrix with
    one column per column of [gy], and every element [(k, j)] of it is column
    [k] of the weights (row [k] of the transpose) times column [j] of [gy]. *)
Theorem Backward_transposed heap L (input gy : Mat E) :
  Linear.shaped L →
  is_ok (Linear.load heap (Linear.weight L)) = true →
  n_rows gy = Linear.outSize L →
  ∃ g,
    Linear.Backward heap L input gy = Ok g ∧
    n_rows g = Linear.inSize L ∧
    n_cols g = n_cols gy ∧
    wf g ∧
    ∀ k j, k < Linear.inSize L → j < n_cols gy →
      at_ g k j =
      accu_upto (Linear.outSize L)
        (λ i, mul (Linear.member_at heap (Linear.weight L) i k) (at_ gy i j)).
Proof.
  intros (HWr & HWc & _) HW Hgy.
  apply is_ok_inv in HW as [W HW].
  destruct (load_shape _ _ _ HW) as [HWr' HWc'].
  unfold Linear.Backward. rewrite HW. simpl.
  rewrite mat_mul_ok by (simpl; congruence). simpl.
  eexists. split; [reflexivity|].
  split; [simpl; congruence|]. split; [reflexivity|].
  split; [apply generate_wf|].
  intros k j Hk Hj.
  rewrite generate_at by (simpl; lia).
  rewrite HWr', HWr.
  apply accu_upto_ext. intros i Hi. f_equal.
  rewrite trans_at by lia.
  apply (load_at heap _ W); [assumption | lia | lia].
Qed.

Lemma Forward_mismatch heap L (input : Mat E) :
  Linear.shaped L → n_rows input ≠ Linear.inSize L →
  is_ok (Linear.Forward heap L input) = false.
Proof.
  intros (HWr & HWc & _) Hin. unfold Linear.Forward.
  destruct (Linear.load heap (Linear.weight L)) as [W|e] eqn:HW; [|reflexivity].
  simpl. destruct (Linear.load heap (Linear.bias L)) as [b|e]; [|reflexivity].
  simpl. destruct (load_shape _ _ _ HW) as [_ HWc'].
  unfold mat_mul. rewrite decide_False by congruence. reflexivity.
Qed.

Lemma weight_n_elem L :
  Linear.shaped L →
  SizeT.fits (Linear.outSize L * Linear.inSize L + Linear.outSize L) →
  Linear.member_n_elem (Linear.weight L) =
  Z.of_nat (Linear.outSize L * Linear.inSize L).
Proof.
  intros (HWr & HWc & _) Hfit. unfold Linear.member_n_elem.
  rewrite HWr, HWc, <- Nat2Z.inj_mul. apply SizeT.wrap_small.
  unfold SizeT.fits in Hfit. lia.
Qed.

(** C4.  For a non-empty layer, an input with [inSize] rows, an error with
    [outSize] rows and as many columns as the input, and a gradient buffer
    that is one column of [outSize * inSize + outSize] cells, [Gradient]
    returns what the regularizer's [Evaluate] makes, given the parameters,
    of the buffer [g] in which cell [i + k * outSize] (element [(i, k)] of
    [error * input.t()] in column-major order) is row [i] of the error times
    row [k] of the input, and cell [outSize * inSize + i] is the sum of row
    [i] of the error. *)
Theorem Gradient_layout heap L (input error gradient : Mat E) :
  Linear.shaped L →
  0 < Linear.outSize L → 0 < Linear.inSize L →
  SizeT.fits (Linear.outSize L * Linear.inSize L + Linear.outSize L) →
  n_rows input = Linear.inSize L →
  n_rows error = Linear.outSize L →
  n_cols error = n_cols input →
  n_rows gradient = Linear.outSize L * Linear.inSize L + Linear.outSize L →
  n_cols gradient = 1 →
  is_ok (Linear.load heap (Linear.weights L)) = true →
  ∃ W g,
    Linear.load heap (Linear.weights L) = Ok W ∧
    Linear.Gradient heap L input error gradient =
      Ok (Linear.Evaluate (Linear.regularizer L) W g) ∧
    n_rows g = Linear.outSize L * Linear.inSize L + Linear.outSize L ∧
    n_cols g = 1 ∧
    wf g ∧
    (∀ i k, i < Linear.outSize L → k < Linear.inSize L →
       at_ g (i + k * Linear.outSize L) 0 =
       accu_upto (n_cols input) (λ j, mul (at_ error i j) (at_ input k j))) ∧
    (∀ i, i < Linear.outSize L →
       at_ g (Linear.outSize L * Linear.inSize L + i) 0 =
       accu_upto (n_cols input) (λ j, at_ error i j)).
Proof.
  intros Hsh Hout Hin Hfit Hxr Her Hec Hgr Hgc HW.
  apply is_ok_inv in HW as [W HW].
  set (o := Linear.outSize L) in *. set (n := Linear.inSize L) in *.
  assert (Hpos : 0 < o * n) by nia.
  unfold Linear.Gradient.
  rewrite mat_mul_ok by (simpl; congruence). simpl.
  rewrite (weight_n_elem L Hsh Hfit). fold o n.
  replace (SizeT.wrap (Z.of_nat (o * n) - 1)) with (Z.of_nat (o * n - 1)).
  2:{ rewrite SizeT.wrap_small; unfold SizeT.fits in Hfit; lia. }
  rewrite (submat_assign_ok gradient 0 0 (o * n - 1) 0)
    by (simpl; unfold n_elem; simpl; lia).
  simpl. unfold n_elem at 1. simpl. rewrite Hgr, Hgc.
  replace (SizeT.wrap (Z.of_nat ((o * n + o) * 1) - 1))
    with (Z.of_nat (o * n + o - 1)).
  2:{ rewrite SizeT.wrap_small; unfold SizeT.fits in Hfit; lia. }
  rewrite (submat_assign_ok _ (o * n) 0 (o * n + o - 1) 0)
    by (simpl; lia).
  simpl. rewrite HW. simpl.
  eexists W, _. split; [reflexivity|]. split; [reflexivity|].
  split; [reflexivity|]. split; [reflexivity|].
  split; [apply generate_wf|]. split.
  - intros i k Hi Hk.
    assert (Ht : i + k * o < o * n) by nia.
    rewrite generate_at by lia.
    rewrite decide_False by lia.
    rewrite generate_at by lia.
    rewrite decide_True by lia.
    rewrite !Nat.sub_0_r.
    replace (i + k * o) with
      (i + k * n_rows (generate (n_rows error) (n_rows input)
         (λ i0 j, accu_upto (n_cols error)
            (λ k0, mul (at_ error i0 k0) (at_ (trans input) k0 j)))))
      by (simpl; congruence).
    rewrite vectorise_at.
    rewrite generate_at by lia.
    rewrite Hec. apply accu_upto_ext. intros j Hj. f_equal.
    apply trans_at; lia.
  - intros i Hi.
    rewrite generate_at by lia.
    rewrite decide_True by lia.
    replace (o * n + i - o * n) with i by lia.
    unfold sum_rows. rewrite generate_at by lia.
    rewrite Hec. reflexivity.
Qed.

(** What the three members read once [SetWeights] has run: the contents of
    the caller's buffer at the time of the read. *)
Lemma SetWeights_load ptr L heap :
  SizeT.fits (Linear.outSize L * Linear.inSize L + Linear.outSize L) →
  ptr + (Linear.outSize L * Linear.inSize L + Linear.outSize L) ≤ length heap →
  let ps := take (Linear.outSize L * Linear.inSize L + Linear.outSize L)
              (drop ptr heap) in
  let L' := Linear.SetWeights ptr L in
  let held := Linear.owning ps L in
  Linear.load heap (Linear.weights L') = Linear.load [] (Linear.weights held) ∧
  Linear.load heap (Linear.weight L') = Linear.load [] (Linear.weight held) ∧
  Linear.load heap (Linear.bias L') = Linear.load [] (Linear.bias held).
Proof.
  intros Hfit Hlen. simpl.
  set (o := Linear.outSize L) in *. set (n := Linear.inSize L) in *.
  assert (Hn : Z.to_nat (SizeT.wrap (Z.of_nat o * Z.of_nat n)) = o * n).
  { rewrite <- Nat2Z.inj_mul. apply SizeT.to_nat_fits.
    unfold SizeT.fits in *. lia. }
  assert (Ht : SizeT.to_nat (Z.of_nat o * Z.of_nat n + Z.of_nat o) = o * n + o).
  { rewrite <- Nat2Z.inj_mul, <- Nat2Z.inj_add. by apply SizeT.to_nat_fits. }
  unfold Linear.member_n_elem. simpl. rewrite Hn, Ht.
  unfold deref, aux_n_elem. simpl. rewrite !Nat.mul_1_r.
  rewrite !decide_True by nia.
  repeat split.
  - do 2 f_equal. rewrite take_take. f_equal. lia.
  - do 2 f_equal.
    rewrite <- (take_drop_commute (drop ptr heap) o (o * n)).
    rewrite take_take, drop_drop, Nat.min_id. reflexivity.
Qed.

(** C10.  [SetWeights(ptr)] leaves the layer with three views and no data
    of its own: [weights] is one column of [outSize * inSize + outSize]
    cells at [ptr], [weight] is the [outSize] by [inSize] matrix on the
    first [outSize * inSize] of them, [bias] the column on the [outSize]
    cells after.  Whatever memory [heap'] holds later, the three passes
    compute what a layer holding the buffer's contents at that time would;
    and a write to cell [t] of the buffer, directly or through
    [Parameters()], changes exactly that cell of those contents. *)
Theorem SetWeights_aliases ptr L heap :
  SizeT.fits (Linear.outSize L * Linear.inSize L + Linear.outSize L) →
  ptr + (Linear.outSize L * Linear.inSize L + Linear.outSize L) ≤ length heap →
  let o := Linear.outSize L in
  let n := Linear.inSize L in
  let buffer h := take (o * n + o) (drop ptr h) in
  let L' := Linear.SetWeights ptr L in
  Linear.weights L' = Linear.Borrowed (mkAux ptr (o * n + o) 1) ∧
  Linear.weight L' = Linear.Borrowed (mkAux ptr o n) ∧
  Linear.bias L' = Linear.Borrowed (mkAux (ptr + o * n) o 1) ∧
  Linear.member_n_elem (Linear.weights L') = Z.of_nat (o * n + o) ∧
  length (buffer heap) = o * n + o ∧
  (∀ i k, i < o → k < n →
     Linear.member_at heap (Linear.weight L') i k =
     default zero (buffer heap !! (i + k * o))) ∧
  (∀ i, i < o →
     Linear.member_at heap (Linear.bias L') i 0 =
     default zero (buffer heap !! (o * n + i))) ∧
  (∀ heap', length heap' = length heap →
     (∀ input, Linear.Forward heap' L' input =
               Linear.Forward [] (Linear.owning (buffer heap') L) input) ∧
     (∀ input gy, Linear.Backward heap' L' input gy =
                  Linear.Backward [] (Linear.owning (buffer heap') L) input gy) ∧
     (∀ input error gradient,
        Linear.Gradient heap' L' input error gradient =
        Linear.Gradient [] (Linear.owning (buffer heap') L)
          input error gradient)) ∧
  (∀ t x, t < o * n + o →
     Linear.member_set heap (Linear.Parameters L') t 0 x = <[ptr + t := x]> heap ∧
     length (<[ptr + t := x]> heap) = length heap ∧
     buffer (<[ptr + t := x]> heap) = <[t := x]> (buffer heap)).
Proof.
  intros Hfit Hlen o n buffer L'.
  assert (Hn : Z.to_nat (SizeT.wrap (Z.of_nat o * Z.of_nat n)) = o * n).
  { rewrite <- Nat2Z.inj_mul. apply SizeT.to_nat_fits.
    unfold SizeT.fits in *. fold o n in Hfit. lia. }
  assert (Ht : SizeT.to_nat (Z.of_nat o * Z.of_nat n + Z.of_nat o) = o * n + o).
  { rewrite <- Nat2Z.inj_mul, <- Nat2Z.inj_add. by apply SizeT.to_nat_fits. }
  assert (Hw : Linear.weights L' = Linear.Borrowed (mkAux ptr (o * n + o) 1)).
  { unfold L', Linear.SetWeights. simpl. fold o n. by rewrite Ht. }
  assert (Hb : Linear.bias L' = Linear.Borrowed (mkAux (ptr + o * n) o 1)).
  { unfold L', Linear.SetWeights, Linear.member_n_elem. simpl. fold o n.
    by rewrite Hn. }
  split; [exact Hw|]. split; [reflexivity|]. split; [exact Hb|].
  split.
  { rewrite Hw. unfold Linear.member_n_elem. simpl.
    rewrite Z.mul_1_r. apply SizeT.wrap_small.
    unfold SizeT.fits in Hfit. fold o n in Hfit. lia. }
  split.
  { unfold buffer. rewrite length_take, length_drop. fold o n in Hlen. lia. }
  split.
  { intros i k Hi Hk. simpl. unfold aux_at, buffer. simpl.
    rewrite lookup_take, lookup_drop. rewrite decide_True by nia. reflexivity. }
  split.
  { intros i Hi. rewrite Hb. simpl. unfold aux_at, buffer. simpl.
    rewrite lookup_take, lookup_drop. rewrite decide_True by nia.
    rewrite Nat.add_0_r. do 2 f_equal. lia. }
  split.
  { intros heap' Hlen'.
    destruct (SetWeights_load ptr L heap' Hfit) as (Hlw & HlW & Hlb).
    { rewrite Hlen'. exact Hlen. }
    fold o n in Hlw, HlW, Hlb. fold buffer in Hlw, HlW, Hlb. fold L' in Hlw, HlW, Hlb.
    repeat split.
    - intros input. unfold Linear.Forward. by rewrite HlW, Hlb.
    - intros input gy. unfold Linear.Backward. by rewrite HlW.
    - intros input error gradient. unfold Linear.Gradient. by rewrite Hlw. }
  intros t x Htx. split.
  { unfold Linear.Parameters. rewrite Hw. simpl. unfold aux_set. simpl.
    f_equal. lia. }
  split; [apply length_insert|].
  unfold buffer. rewrite drop_insert_ge by lia.
  rewrite take_insert_lt by lia. do 2 f_equal. lia.
Qed.

End LinearFacts.

(** ** A concrete layer over the integers *)

Module LinearExample.

#[export] Instance Z_elem : Elem Z := {| zero := 0%Z; add := Z.add; mul := Z.mul |}.

(** A regularizer that adds the parameters to the gradient, cell by cell. *)
Definition decay : Linear.RegularizerType Z :=
  {| Linear.Evaluate := λ W g,
       generate (n_rows g) (n_cols g) (λ i j, (at_ g i j + at_ W i j)%Z) |}.

(** Three inputs, two outputs; the caller's buffer is cells 1 to 8 of the
    memory. *)
Definition layer : Linear.LinearType Z :=
  Linear.SetWeights 1
    (Linear.mkLinear 3 2 decay (Linear.Owned (mkMat 0 0 []))
       (Linear.Owned (mkMat 0 0 [])) (Linear.Owned (mkMat 0 0 []))).

Definition heap : list Z := [90; 1; 2; 3; 4; 5; 6; 7; 8; 91]%Z.

(** Two batch columns. *)
Definition input : Mat Z := mkMat 3 2 [1; 1; 1; 1; 0; -1]%Z.
Definition gy : Mat Z := mkMat 2 2 [1; 2; 3; 4]%Z.
Definition gradient0 : Mat Z := mkMat 8 1 (replicate 8 0%Z).

Example Forward_runs :
  Linear.Forward heap layer input = Ok (mkMat 2 2 [16; 20; 3; 4]%Z).
Proof. reflexivity. Qed.

Example Backward_runs :
  Linear.Backward heap layer input gy = Ok (mkMat 3 2 [5; 11; 17; 11; 25; 39]%Z).
Proof. reflexivity. Qed.

Example Gradient_runs :
  Linear.Gradient heap layer input gy gradient0 =
  Ok (mkMat 8 1 [5; 8; 4; 6; 3; 4; 11; 14]%Z).
Proof. reflexivity. Qed.

(** After a write to the buffer the same layer answers differently. *)
Example Forward_sees_write :
  Linear.Forward (<[1 := 100%Z]> heap) layer input =
  Ok (mkMat 2 2 [115; 20; 102; 4]%Z).
Proof. reflexivity. Qed.

(** A layer with no input has no weight cell, and the first corner index
    wraps. *)
Example Gradient_empty_layer :
  is_ok (Linear.Gradient heap
           (Linear.SetWeights 1
              (Linear.mkLinear 0 2 decay (Linear.Owned (mkMat 0 0 []))
                 (Linear.Owned (mkMat 0 0 [])) (Linear.Owned (mkMat 0 0 []))))
           (mkMat 0 2 []) gy (mkMat 2 1 [0; 0]%Z)) = false.
Proof. reflexivity. Qed.

End LinearExample.

Section LinearWitnesses.
Import LinearExample.

Lemma layer_shaped : Linear.shaped layer.
Proof. repeat split. Qed.

Lemma Forward_affine_witness :
  ∃ output,
    Linear.Forward heap layer input = Ok output ∧
    n_rows output = 2 ∧ n_cols output = 2 ∧ wf output ∧
    ∀ i j, i < 2 → j < 2 →
      at_ output i j =
      add (accu_upto 3
             (λ k, mul (Linear.member_at heap (Linear.weight layer) i k)
                       (at_ input k j)))
          (Linear.member_at heap (Linear.bias layer) i 0).
Proof.
  apply (Forward_affine heap layer input);
    [repeat split | reflexivity | reflexivity | reflexivity].
Defined.

Lemma Backward_transposed_witness :
  ∃ g,
    Linear.Backward heap layer input gy = Ok g ∧
    n_rows g = 3 ∧ n_cols g = 2 ∧ wf g ∧
    ∀ k j, k < 3 → j < 2 →
      at_ g k j =
      accu_upto 2
        (λ i, mul (Linear.member_at heap (Linear.weight layer) i k) (at_ gy i j)).
Proof.
  apply (Backward_transposed heap layer input gy);
    [repeat split | reflexivity | reflexivity].
Defined.

Lemma Gradient_layout_witness :
  ∃ W g,
    Linear.load heap (Linear.weights layer) = Ok W ∧
    Linear.Gradient heap layer input gy gradient0 =
      Ok (Linear.Evaluate decay W g) ∧
    n_rows g = 8 ∧ n_cols g = 1 ∧ wf g ∧
    (∀ i k, i < 2 → k < 3 →
       at_ g (i + k * 2) 0 =
       accu_upto 2 (λ j, mul (at_ gy i j) (at_ input k j))) ∧
    (∀ i, i < 2 →
       at_ g (6 + i) 0 = accu_upto 2 (λ j, at_ gy i j)).
Proof.
  apply (Gradient_layout heap layer input gy gradient0);
    [repeat split | simpl; lia | simpl; lia | vm_compute; reflexivity
    | reflexivity | reflexivity | reflexivity | reflexivity | reflexivity
    | reflexivity].
Defined.

Lemma SetWeights_aliases_witness :
  let base :=
    Linear.mkLinear 3 2 decay (Linear.Owned (mkMat 0 0 []))
      (Linear.Owned (mkMat 0 0 [])) (Linear.Owned (mkMat 0 0 [])) in
  let buffer h := take 8 (drop 1 h) in
  Linear.weights layer = Linear.Borrowed (mkAux 1 8 1) ∧
  Linear.weight layer = Linear.Borrowed (mkAux 1 2 3) ∧
  Linear.bias layer = Linear.Borrowed (mkAux 7 2 1) ∧
  Linear.member_n_elem (Linear.weights layer) = 8%Z ∧
  length (buffer heap) = 8 ∧
  (∀ i k, i < 2 → k < 3 →
     Linear.member_at heap (Linear.weight layer) i k =
     default zero (buffer heap !! (i + k * 2))) ∧
  (∀ i, i < 2 →
     Linear.member_at heap (Linear.bias layer) i 0 =
     default zero (buffer heap !! (6 + i))) ∧
  (∀ heap', length heap' = length heap →
     (∀ x, Linear.Forward heap' layer x =
           Linear.Forward [] (Linear.owning (buffer heap') base) x) ∧
     (∀ x g, Linear.Backward heap' layer x g =
             Linear.Backward [] (Linear.owning (buffer heap') base) x g) ∧
     (∀ x e g,
        Linear.Gradient heap' layer x e g =
        Linear.Gradient [] (Linear.owning (buffer heap') base) x e g)) ∧
  (∀ t x, t < 8 →
     Linear.member_set heap (Linear.Parameters layer) t 0 x = <[1 + t := x]> heap ∧
     length (<[1 + t := x]> heap) = length heap ∧
     buffer (<[1 + t := x]> heap) = <[t := x]> (buffer heap)).
Proof.
  intros base.
  apply (SetWeights_aliases 1 base heap); [vm_compute; reflexivity | simpl; lia].
Defined.

End LinearWitnesses.

(** ** The AdaBoost probability-prediction binding
       ([adaboost_predict_proba_main.cpp]) *)

Module AdaBoostPredictProba.
Section Binding.
Context {E : Type} `{Elem E}.

(** [AdaBoostModel], as far as the binding uses it. *)
Record AdaBoostModel : Type := {
  Dimensionality : nat;
  Classify : Mat E → list nat * Mat E
}.

(** A parameter of the program: a matrix, or a pointer to a model. *)
Inductive Value : Type :=
| MatV (m : Mat E)
| ModelV (m : option AdaBoostModel).

Record ParamData : Type := mkParam {
  wasPassed : bool;
  value : Value
}.

(** What the binding is handed and does not define itself: the timers and
    the check on which parameters were passed. *)
Class Environment : Type := {
  Timers : Type;
  Start : string → Timers → result Timers;
  Stop : string → Timers → result Timers;
  RequireOnlyOnePassed : gmap string ParamData → list string → result unit
}.
Context `{Environment}.

(** The state the binding runs in.  [classified] records the calls of
    [Classify], with the data each was given. *)
Record World : Type := mkWorld {
  params : gmap string ParamData;
  timers : Timers;
  classified : list (Mat E)
}.

(** A computation ends with a value or an exception, in the state it had
    reached. *)
Definition M (A : Type) : Type := World → result A * World.

#[local] Instance M_ret : MRet M := λ A a w, (Ok a, w).
#[local] Instance M_bind : MBind M := λ A B f m w,
  match m w with
  | (Ok a, w') => f a w'
  | (Throw e, w') => (Throw e, w')
  end.

Definition lift {A} (r : result A) : M A := λ w, (r, w).

(** Modelled from the spec: [Log::Fatal] is not among the sources.  The spec calls
    the outcome a fatal error, reported immediately, with no partial
    execution: the message is reported and control does not return. *)
Definition Log_Fatal {A} (msg : string) : M A := lift (Throw (Fatal msg)).

Definition show (n : nat) : string := NilZero.string_of_uint (Nat.to_uint n).

Definition no_such_parameter (name : string) : string :=
  "Parameter '" ++ name ++ "' does not exist in this program!".

Definition require_only_one_passed (names : list string) : M unit :=
  λ w, (RequireOnlyOnePassed (params w) names, w).

(** [params.Get<AdaBoostModel*>(name)]. *)
Definition Get_model (name : string) : M (option AdaBoostModel) :=
  λ w, match params w !! name with
       | Some (mkParam _ (ModelV m)) => (Ok m, w)
       | Some _ => (Throw (LogicError "bad parameter type"), w)
       | None => (Throw (Fatal (no_such_parameter name)), w)
       end.

(** [std::move(params.Get<arma::mat>(name))], bound to a new matrix: the
    stored matrix is left empty. *)
Definition move_mat (name : string) : M (Mat E) :=
  λ w, match params w !! name with
       | Some (mkParam passed (MatV m)) =>
           (Ok m, mkWorld (<[name := mkParam passed (MatV (mkMat 0 0 []))]> (params w))
                    (timers w) (classified w))
       | Some _ => (Throw (LogicError "bad parameter type"), w)
       | None => (Throw (Fatal (no_such_parameter name)), w)
       end.

(** [params.Get<arma::mat>(name) = std::move(x)]. *)
Definition set_mat (name : string) (x : Mat E) : M unit :=
  λ w, match params w !! name with
       | Some (mkParam passed (MatV _)) =>
           (Ok (), mkWorld (<[name := mkParam passed (MatV x)]> (params w))
                     (timers w) (classified w))
       | Some _ => (Throw (LogicError "bad parameter type"), w)
       | None => (Throw (Fatal (no_such_parameter name)), w)
       end.

Definition timers_Start (name : string) : M unit :=
  λ w, match Start name (timers w) with
       | Ok t => (Ok (), mkWorld (params w) t (classified w))
       | Throw e => (Throw e, w)
       end.

Definition timers_Stop (name : string) : M unit :=
  λ w, match Stop name (timers w) with
       | Ok t => (Ok (), mkWorld (params w) t (classified w))
       | Throw e => (Throw e, w)
       end.

(** [m->...]: a null pointer has nothing to call. *)
Definition through (m : option AdaBoostModel) : M AdaBoostModel :=
  match m with
  | Some model => mret model
  | None => lift (Throw (BadAccess 0))
  end.

Definition run_Classify (model : AdaBoostModel) (data : Mat E)
  : M (list nat * Mat E) :=
  λ w, (Ok (Classify model data),
        mkWorld (params w) (timers w) (classified w ++ [data])).

Definition call_Classify (m : option AdaBoostModel) (data : Mat E)
  : M (list nat * Mat E) :=
  model ← through m;
  run_Classify model data.

Definition call_Dimensionality (m : option AdaBoostModel) : M nat :=
  model ← through m;
  mret (Dimensionality model).

Definition BINDING_FUNCTION : M unit :=
  require_only_one_passed ["test"];;
  require_only_one_passed ["input_model"];;
  m ← Get_model "input_model";
  testingData ← move_mat "test";
  dimensionality ← call_Dimensionality m;
  (if decide (n_rows testingData ≠ dimensionality) then
     Log_Fatal ("Test data dimensionality (" ++ show (n_rows testingData) ++ ") "
                ++ "must be the same as the model dimensionality ("
                ++ show dimensionality ++ ")!")
   else mret ());;
  timers_Start "adaboost_classification";;
  '(predictedLabels, probabilities) ← call_Classify m testingData;
  timers_Stop "adaboost_classification";;
  set_mat "probabilities" probabilities.

End Binding.
Arguments AdaBoostModel E : clear implicits.
Arguments ParamData E : clear implicits.
End AdaBoostPredictProba.

Section BindingFacts.
Context {E : Type} `{Elem E} {env : AdaBoostPredictProba.Environment (E := E)}.
Import AdaBoostPredictProba.

(** C5.  Run on parameters that pass the two checks on what was passed,
    with a model [m] and a test matrix [t]: if [t]'s row count differs from
    the model's dimensionality the run ends in a fatal error, [Classify] has
    not been called, no timer has been touched and the [probabilities]
    parameter is as it was; if they are equal (and the timer starts and
    stops), the run ends normally, [Classify] has been called once, on [t],
    and [probabilities] holds the matrix it produced. *)
Theorem predict_proba_dimension_check (w : World) m t p0 passed_m passed_t passed_p :
  params w !! "input_model" = Some (mkParam passed_m (ModelV (Some m))) →
  params w !! "test" = Some (mkParam passed_t (MatV t)) →
  params w !! "probabilities" = Some (mkParam passed_p (MatV p0)) →
  RequireOnlyOnePassed (params w) ["test"] = Ok () →
  RequireOnlyOnePassed (params w) ["input_model"] = Ok () →
  (n_rows t ≠ Dimensionality m →
     ∃ msg w',
       BINDING_FUNCTION w = (Throw (Fatal msg), w') ∧
       classified w' = classified w ∧
       timers w' = timers w ∧
       params w' !! "probabilities" = params w !! "probabilities") ∧
  (n_rows t = Dimensionality m →
     ∀ t1 t2,
       Start "adaboost_classification" (timers w) = Ok t1 →
       Stop "adaboost_classification" t1 = Ok t2 →
       ∃ w',
         BINDING_FUNCTION w = (Ok (), w') ∧
         classified w' = (classified w ++ [t])%list ∧
         timers w' = t2 ∧
         params w' !! "probabilities" =
           Some (mkParam passed_p (MatV (Classify m t).2))).
Proof.
  intros Hm Ht Hp Hr1 Hr2. split.
  - intros Hne.
    unfold BINDING_FUNCTION, mbind, M_bind, require_only_one_passed.
    rewrite Hr1, Hr2. unfold Get_model. rewrite Hm.
    unfold move_mat. rewrite Ht. simpl.
    rewrite decide_True by assumption. simpl.
    eexists _, _. split; [reflexivity|]. simpl.
    split; [reflexivity|]. split; [reflexivity|].
    by rewrite lookup_insert_ne.
  - intros Heq t1 t2 Hs1 Hs2.
    unfold BINDING_FUNCTION, mbind, M_bind, require_only_one_passed.
    rewrite Hr1, Hr2. unfold Get_model. rewrite Hm.
    unfold move_mat. rewrite Ht. simpl.
    rewrite decide_False by (intros Hc; apply Hc; assumption). simpl.
    unfold timers_Start. simpl. rewrite Hs1. simpl.
    destruct (Classify m t) as [labels probabilities] eqn:Hc.
    unfold timers_Stop. simpl. rewrite Hs2.
    unfold set_mat. simpl.
    rewrite lookup_insert_ne by done. rewrite Hp.
    eexists. split; [reflexivity|]. simpl.
    split; [reflexivity|]. split; [reflexivity|].
    by rewrite lookup_insert_eq.
Qed.

End BindingFacts.

(** ** A concrete run of the binding *)

Module BindingExample.
Import LinearExample AdaBoostPredictProba.

(** Timers that record what was asked of them; the check counts the named
    parameters that were passed. *)
#[export] Instance env : Environment (E := Z) := {|
  Timers := list string;
  Start := λ name t, Ok (app t [String.append "start " name]);
  Stop := λ name t, Ok (app t [String.append "stop " name]);
  RequireOnlyOnePassed := λ ps names,
    if decide (length (filter (λ n, wasPassed <$> ps !! n = Some true) names) = 1)
    then Ok ()
    else Throw (Fatal "Must specify one of the parameters")
|}.

(** A two-class model over two features: every point gets class 0 with
    probability one. *)
Definition model : AdaBoostModel Z := {|
  Dimensionality := 2;
  Classify := λ data,
    (replicate (n_cols data) 0,
     generate 2 (n_cols data) (λ i _, if decide (i = 0) then 1%Z else 0%Z))
|}.

Definition world (test : Mat Z) : World :=
  mkWorld
    (<["test" := mkParam true (MatV test)]>
       (<["input_model" := mkParam true (ModelV (Some model))]>
          (<["probabilities" := mkParam false (MatV (mkMat 0 0 []))]> ∅)))
    [] [].

Definition good : Mat Z := mkMat 2 3 [1; 2; 3; 4; 5; 6]%Z.
Definition bad : Mat Z := mkMat 3 2 [1; 2; 3; 4; 5; 6]%Z.

Example good_run :
  (BINDING_FUNCTION (world good)).1 = Ok () ∧
  classified (BINDING_FUNCTION (world good)).2 = [good] ∧
  timers (BINDING_FUNCTION (world good)).2 =
    ["start adaboost_classification"; "stop adaboost_classification"] ∧
  params (BINDING_FUNCTION (world good)).2 !! "probabilities" =
    Some (mkParam false (MatV (mkMat 2 3 [1; 0; 1; 0; 1; 0]%Z))).
Proof. repeat split; vm_compute; reflexivity. Qed.

Example bad_run :
  (BINDING_FUNCTION (world bad)).1 =
    Throw (Fatal ("Test data dimensionality (3) must be the same as "
                  ++ "the model dimensionality (2)!")) ∧
  classified (BINDING_FUNCTION (world bad)).2 = [] ∧
  timers (BINDING_FUNCTION (world bad)).2 = [] ∧
  params (BINDING_FUNCTION (world bad)).2 !! "probabilities" =
    Some (mkParam false (MatV (mkMat 0 0 []))).
Proof. repeat split; vm_compute; reflexivity. Qed.

End BindingExample.

Lemma predict_proba_dimension_check_witness :
  let w_bad := BindingExample.world BindingExample.bad in
  let w_good := BindingExample.world BindingExample.good in
  (∃ msg w',
     AdaBoostPredictProba.BINDING_FUNCTION w_bad = (Throw (Fatal msg), w') ∧
     AdaBoostPredictProba.classified w' = AdaBoostPredictProba.classified w_bad ∧
     AdaBoostPredictProba.timers w' = AdaBoostPredictProba.timers w_bad ∧
     AdaBoostPredictProba.params w' !! "probabilities" =
       AdaBoostPredictProba.params w_bad !! "probabilities") ∧
  (∃ w',
     AdaBoostPredictProba.BINDING_FUNCTION w_good = (Ok (), w') ∧
     AdaBoostPredictProba.classified w' = [BindingExample.good] ∧
     AdaBoostPredictProba.timers w' =
       ["start adaboost_classification"; "stop adaboost_classification"] ∧
     AdaBoostPredictProba.params w' !! "probabilities" =
       Some (AdaBoostPredictProba.mkParam false
               (AdaBoostPredictProba.MatV
                  (AdaBoostPredictProba.Classify BindingExample.model
                     BindingExample.good).2))).
Proof.
  intros w_bad w_good. split.
  - apply (proj1 (predict_proba_dimension_check w_bad BindingExample.model
                    BindingExample.bad (mkMat 0 0 []) true true false
                    eq_refl eq_refl eq_refl eq_refl eq_refl)).
    simpl. lia.
  - apply (proj2 (predict_proba_dimension_check w_good BindingExample.model
                    BindingExample.good (mkMat 0 0 []) true true false
                    eq_refl eq_refl eq_refl eq_refl eq_refl)
             eq_refl ["start adaboost_classification"]
             ["start adaboost_classification"; "stop adaboost_classification"]
             eq_refl eq_refl).
Defined.

(** ** Exact arithmetic for the distributions *)

(** The distributions are templates over the element type as well; their
    claims are about equalities of computed parameters, which is stated here
    over the rationals (no rounding). *)

Definition qc_of_nat (n : nat) : Qc := Q2Qc (inject_Z (Z.of_nat n)).

(** [arma::accu]. *)
Definition accu (l : list Qc) : Qc := foldr Qcplus 0%Qc l.

Definition product (l : list Qc) : Qc := foldr Qcmult 1%Qc l.

(** ** The discrete distribution *)

Module Discrete.

(** Modelled from the spec: [DiscreteDistribution] is not among the sources, only
    its tests are.  The spec has it hold one probability vector per
    dimension, the probability of a vector observation being the product of
    the per-dimension probabilities of its symbols; the tests fix the values
    (a distribution over [n] symbols starts uniform, vectors given to the
    constructor are divided by their sum, training counts). *)
Record DiscreteDistribution : Type := mkDiscrete {
  probabilities : list (list Qc)
}.

(** Modelled from the spec: the constructor [DiscreteDistribution
    d(numObservations)], not among the sources.  One dimension, every symbol
    equally likely ([DiscreteDistributionConstructorTest]). *)
Definition of_count (numObservations : nat) : DiscreteDistribution :=
  mkDiscrete
    [replicate numObservations (1 / qc_of_nat numObservations)%Qc].

(** Modelled from the spec: the constructor [DiscreteDistribution
    d("10 10 10")], not among the sources.  One symbol count per dimension, each
    dimension uniform ([MultiDiscreteDistributionConstructorTest]). *)
Definition of_counts (numObservations : list nat) : DiscreteDistribution :=
  mkDiscrete
    ((λ n, replicate n (1 / qc_of_nat n)%Qc) <$> numObservations).

(** A vector divided by its sum; one that sums to zero has nothing to be
    divided by and is made uniform. *)
Definition normalised (counts : list Qc) : list Qc :=
  if decide (accu counts = 0%Qc) then
    replicate (length counts) (1 / qc_of_nat (length counts))%Qc
  else (λ x, x / accu counts)%Qc <$> counts.

(** Modelled from the spec: the constructor [DiscreteDistribution
    d(probabilities)], not among the sources.  Each vector is divided by its sum
    ([MultiDiscreteDistributionTrainTest]: "0.3, 0.3, 0.3" gives a third
    each). *)
Definition of_probabilities (pro : list (list Qc)) : DiscreteDistribution :=
  mkDiscrete (normalised <$> pro).

Definition Dimensionality (d : DiscreteDistribution) : nat :=
  length (probabilities d).

(** The number of symbols of each dimension. *)
Definition cardinalities (d : DiscreteDistribution) : list nat :=
  length <$> probabilities d.

(** Modelled from the spec: [d.Probabilities(dim)], not among the sources, read. *)
Definition Probabilities (d : DiscreteDistribution) (dim : nat) : list Qc :=
  default [] (probabilities d !! dim).

(** Modelled from the spec: [d.Probabilities(dim) = v], not among the sources.
    The accessor hands out the stored vector, and the assignment replaces it
    ([DiscreteDistributionProbabilityTest] reads the assigned values
    back). *)
Definition set_Probabilities (d : DiscreteDistribution) (dim : nat)
    (v : list Qc) : DiscreteDistribution :=
  mkDiscrete (<[dim := v]> (probabilities d)).

(** Modelled from the spec: the loop of [d.Probability(observation)], not
    among the sources: the probability starts at one and is multiplied by each
    dimension's stored probability of its symbol. *)
Fixpoint Probability_loop (ps : list (list Qc)) (observation : list nat)
    (probability : Qc) : result Qc :=
  match ps, observation with
  | p :: ps', obs :: observation' =>
      match p !! obs with
      | Some x => Probability_loop ps' observation' (probability * x)%Qc
      | None => Throw (Fatal "observation outside the bounds of its dimension")
      end
  | _, _ => Ok probability
  end.

(** Modelled from the spec: [d.Probability(observation)], not among the sources.
    An observation of another dimensionality is a fatal error, as the spec
    has dimensionality mismatches. *)
Definition Probability (d : DiscreteDistribution) (observation : list nat)
  : result Qc :=
  if decide (length observation = Dimensionality d) then
    Probability_loop (probabilities d) observation 1%Qc
  else Throw (Fatal "observation and distribution dimensionality differ").

(** The observations a distribution covers: one symbol below the
    cardinality for each dimension. *)
Fixpoint vectors (ks : list nat) : list (list nat) :=
  match ks with
  | [] => [[]]
  | k :: ks' => flat_map (λ s, cons s <$> vectors ks') (seq 0 k)
  end.

Definition support (d : DiscreteDistribution) : list (list nat) :=
  vectors (cardinalities d).

Definition in_support (d : DiscreteDistribution) (observation : list nat)
  : Prop :=
  Forall2 (λ obs k, obs < k) observation (cardinalities d).

(** The sum of [Probability] over the whole support. *)
Definition total_probability (d : DiscreteDistribution) : result Qc :=
  foldr (λ observation acc,
           p ← Probability d observation; s ← acc; Ok (p + s)%Qc)
        (Ok 0%Qc) (support d).

(** How often symbol [s] occurs in a row of observations. *)
Definition occurrences (s : nat) (row : list nat) : nat :=
  length (filter (λ o, o = s) row).

(** The weight a row of observations gives symbol [s]. *)
Definition weight_of (s : nat) (row : list nat) (w : list Qc) : Qc :=
  accu ((λ ow, if decide (ow.1 = s) then ow.2 else 0%Qc) <$> zip row w).

(** Modelled from the spec: [d.Train(observations)], not among the sources.  One
    row of observations per dimension; the maximum-likelihood estimate
    counts the symbols and divides the counts by their sum
    ([DiscreteDistributionTrainTest]). *)
Definition Train (d : DiscreteDistribution) (observations : list (list nat))
  : result DiscreteDistribution :=
  if decide (length observations = Dimensionality d) then
    if decide (Forall2 (λ row k, Forall (λ o, o < k) row)
                 observations (cardinalities d)) then
      Ok (mkDiscrete
            (zip_with (λ p row,
                         normalised ((λ s, qc_of_nat (occurrences s row))
                                       <$> seq 0 (length p)))
               (probabilities d) observations))
    else Throw (Fatal "observation outside the bounds of its dimension")
  else Throw (Fatal "observations and distribution dimensionality differ").

(** Modelled from the spec: [d.Train(observations, probabilities)], not
    among the sources.  Each observation counts with its weight
    ([DiscreteDistributionTrainProbTest]). *)
Definition Train_weighted (d : DiscreteDistribution)
    (observations : list (list nat)) (w : list Qc)
  : result DiscreteDistribution :=
  if decide (length observations = Dimensionality d) then
    if decide (Forall2 (λ row k, Forall (λ o, o < k) row)
                 observations (cardinalities d)) then
      Ok (mkDiscrete
            (zip_with (λ p row,
                         normalised ((λ s, weight_of s row w)
                                       <$> seq 0 (length p)))
               (probabilities d) observations))
    else Throw (Fatal "observation outside the bounds of its dimension")
  else Throw (Fatal "observations and distribution dimensionality differ").

End Discrete.

(** ** The values the tests expect *)

(** The call returns a number equal to the decimal the test names. *)
Definition returns (r : result Qc) (expected : Q) : Prop :=
  match r with
  | Ok x => Qeq_bool x expected = true
  | Throw _ => False
  end.

(** The numbers are equal, one by one, to the expected ones. *)
Fixpoint same_values (l : list Qc) (expected : list Q) : bool :=
  match l, expected with
  | [], [] => true
  | x :: l', e :: expected' => Qeq_bool x e && same_values l' expected'
  | _, _ => false
  end.

Module DiscreteTests.
Import Discrete.

(** [MultiDiscreteDistributionConstructorTest]. *)
Example constructor_4444 :
  let d := of_counts [4; 4; 4; 4] in
  length (Probabilities d 0) = 4 ∧ Dimensionality d = 4 ∧
  returns (Probability d [0; 0; 0; 0]) 0.00390625 ∧
  returns (Probability d [0; 1; 2; 3]) 0.00390625.
Proof. repeat split; vm_compute; reflexivity. Qed.

(** [DiscreteDistributionProbabilityTest]. *)
Example assigned_probabilities :
  let d := set_Probabilities (of_count 5) 0
             (Q2Qc <$> [0.2; 0.4; 0.1; 0.1; 0.2]%Q) in
  returns (Probability d [0]) 0.2 ∧ returns (Probability d [1]) 0.4 ∧
  returns (Probability d [2]) 0.1 ∧ returns (Probability d [3]) 0.1 ∧
  returns (Probability d [4]) 0.2.
Proof. repeat split; vm_compute; reflexivity. Qed.

(** [MultiDiscreteDistributionTrainTest]: 0.0083333 and 0.0166666 are 1/120
    and 1/60. *)
Example constructor_from_vectors :
  let d := of_probabilities
             [Q2Qc <$> [0.1; 0.3; 0.6]%Q; Q2Qc <$> [0.3; 0.3; 0.3]%Q;
              Q2Qc <$> [0.25; 0.25; 0.5]%Q] in
  returns (Probability d [0; 0; 0]) (1 # 120) ∧
  returns (Probability d [0; 1; 2]) (1 # 60) ∧
  returns (Probability d [2; 1; 0]) 0.05.
Proof. repeat split; vm_compute; reflexivity. Qed.

(** [DiscreteDistributionTrainTest]. *)
Example train_counts :
  ∃ d, Train (of_count 4) [[0; 0; 1; 1; 2; 2; 2; 3]] = Ok d ∧
       returns (Probability d [0]) 0.25 ∧ returns (Probability d [1]) 0.25 ∧
       returns (Probability d [2]) 0.375 ∧ returns (Probability d [3]) 0.125.
Proof. eexists. split; [reflexivity|]. repeat split; vm_compute; reflexivity. Qed.

(** [DiscreteDistributionTrainProbTest]. *)
Example train_weighted_counts :
  ∃ d, Train_weighted (of_count 3) [[0; 0; 1; 2]]
         (Q2Qc <$> [0.25; 0.25; 0.5; 1.0]%Q) = Ok d ∧
       returns (Probability d [0]) 0.25 ∧ returns (Probability d [1]) 0.25 ∧
       returns (Probability d [2]) 0.5.
Proof. eexists. split; [reflexivity|]. repeat split; vm_compute; reflexivity. Qed.

(** [MultiDiscreteDistributionTrainProbTest]. *)
Example train_three_dimensions :
  ∃ d, Train (of_counts [10; 10; 10])
         [[0; 1; 1; 1; 2; 2; 2; 2; 2; 2];
          [0; 0; 0; 1; 1; 1; 2; 2; 2; 2];
          [0; 0; 0; 1; 1; 2; 2; 2; 2; 2]] = Ok d ∧
       cardinalities d = [10; 10; 10] ∧
       returns (Probability d [0; 0; 0]) 0.009 ∧
       returns (Probability d [0; 1; 2]) 0.015 ∧
       returns (Probability d [2; 1; 0]) 0.054.
Proof. eexists. split; [reflexivity|]. repeat split; vm_compute; reflexivity. Qed.

(** [MultiDiscreteDistributionTrainProTest]. *)
Example train_weighted_three_dimensions :
  ∃ d, Train_weighted (of_counts [5; 5; 5])
         [[0; 0; 1; 1; 2]; [0; 1; 1; 2; 2]; [0; 1; 1; 2; 2]]
         (Q2Qc <$> [0.25; 0.25; 0.25; 0.25; 1]%Q) = Ok d ∧
       returns (Probability d [0; 0; 0]) 0.00390625 ∧
       returns (Probability d [1; 0; 1]) 0.0078125 ∧
       returns (Probability d [2; 1; 0]) 0.015625.
Proof. eexists. split; [reflexivity|]. repeat split; vm_compute; reflexivity. Qed.

End DiscreteTests.

(** ** Sums and products of rationals *)

Lemma accu_cons (x : Qc) (l : list Qc) : accu (x :: l) = (x + accu l)%Qc.
Proof. reflexivity. Qed.




Lemma qc_of_nat_S (n : nat) : qc_of_nat (S n) = (qc_of_nat n + 1)%Qc.
Proof.
  unfold qc_of_nat. apply Qc_is_canon.
  rewrite Nat2Z.inj_succ. unfold Z.succ. rewrite inject_Z_plus.
  simpl. rewrite !Qred_correct. reflexivity.
Qed.

Lemma accu_replicate (n : nat) (x : Qc) :
  accu (replicate n x) = (qc_of_nat n * x)%Qc.
Proof.
  induction n as [|n IH].
  - change (accu (replicate 0 x)) with 0%Qc.
    change (qc_of_nat 0) with 0%Qc. ring.
  - change (replicate (S n) x) with (x :: replicate n x).
    rewrite accu_cons, IH, qc_of_nat_S. ring.
Qed.

Lemma qc_of_nat_nonzero (n : nat) : 0 < n → qc_of_nat n ≠ 0%Qc.
Proof.
  intros Hn Heq. apply (f_equal this) in Heq.
  unfold qc_of_nat in Heq. simpl in Heq.
  assert (Hq : (inject_Z (Z.of_nat n) == 0)%Q).
  { rewrite <- (Qred_correct (inject_Z (Z.of_nat n))). rewrite Heq. reflexivity. }
  unfold Qeq in Hq. simpl in Hq. lia.
Qed.

Lemma accu_uniform (n : nat) :
  0 < n → accu (replicate n (1 / qc_of_nat n)%Qc) = 1%Qc.
Proof.
  intros Hn. rewrite accu_replicate. field. by apply qc_of_nat_nonzero.
Qed.

Lemma accu_div (c : Qc) (l : list Qc) :
  accu ((λ x, x / c)%Qc <$> l) = (accu l / c)%Qc.
Proof.
  induction l as [|x l IH].
  - change (accu (_ <$> [])) with 0%Qc. change (accu []) with 0%Qc.
    unfold Qcdiv. ring.
  - rewrite fmap_cons, !accu_cons, IH. unfold Qcdiv. ring.
Qed.

Lemma accu_divided (p : list Qc) :
  accu p ≠ 0%Qc → accu ((λ x, x / accu p)%Qc <$> p) = 1%Qc.
Proof. intros Hp. rewrite accu_div. field. exact Hp. Qed.

(** ** The discrete distribution: probabilities of observations *)

Section DiscreteFacts.
Import Discrete.

(** The stored probability of each dimension's symbol. *)
Definition selected (ps : list (list Qc)) (observation : list nat) : list Qc :=
  zip_with (λ p obs, default 0%Qc (p !! obs)) ps observation.


Lemma Probability_loop_product ps observation (acc : Qc) :
  Forall2 (λ obs k, obs < k) observation (length <$> ps) →
  Probability_loop ps observation acc =
  Ok (acc * product (selected ps observation))%Qc.
Proof.
  revert observation acc. induction ps as [|p ps IH]; intros observation acc Hin.
  - apply Forall2_nil_inv_r in Hin as ->. simpl. f_equal.
    change (product (selected [] [])) with 1%Qc. ring.
  - rewrite fmap_cons in Hin.
    apply Forall2_cons_inv_r in Hin as (obs & observation' & Hobs & Hin & ->).
    simpl. destruct (lookup_lt_is_Some_2 p obs Hobs) as [x Hx].
    rewrite Hx. rewrite IH by assumption. f_equal.
    unfold selected. simpl. ring.
Qed.

Lemma selected_by_index ps observation :
  length observation = length ps →
  selected ps observation =
  (λ dim, default 0%Qc
            (default [] (ps !! dim) !! default 0 (observation !! dim)))
    <$> seq 0 (length ps).
Proof.
  revert observation. induction ps as [|p ps IH]; intros observation Hlen.
  - reflexivity.
  - destruct observation as [|obs observation]; [discriminate|].
    simpl in Hlen. injection Hlen as Hlen.
    simpl length. rewrite <- cons_seq, fmap_cons, <- fmap_S_seq.
    rewrite <- list_fmap_compose. unfold selected. simpl. f_equal.
    apply IH. exact Hlen.
Qed.

Lemma in_support_length d observation :
  in_support d observation → length observation = Dimensionality d.
Proof.
  intros Hin. apply Forall2_length in Hin.
  unfold cardinalities in Hin. rewrite length_fmap in Hin. exact Hin.
Qed.

Lemma Probability_selected d observation :
  in_support d observation →
  Probability d observation = Ok (product (selected (probabilities d) observation)).
Proof.
  intros Hin. unfold Probability.
  rewrite decide_True by (by apply in_support_length).
  rewrite Probability_loop_product by exact Hin. f_equal. ring.
Qed.

Lemma length_normalised counts : length (normalised counts) = length counts.
Proof.
  unfold normalised. case_decide.
  - apply length_replicate.
  - apply length_fmap.
Qed.

Lemma lengths_zip_with {A} (f : list Qc → A → list Qc) ps (rows : list A) :
  (∀ p r, length (f p r) = length p) →
  length rows = length ps →
  length <$> zip_with f ps rows = length <$> ps.
Proof.
  intros Hf. revert rows. induction ps as [|p ps IH]; intros rows Hlen.
  - reflexivity.
  - destruct rows as [|r rows]; [discriminate|]. simpl.
    rewrite Hf. f_equal. apply IH. simpl in Hlen. lia.
Qed.

(** C6.  The probability of an observation inside the support is the
    product, over the dimensions, of the probability the distribution stores
    for that dimension's symbol.  The number of dimensions and the number of
    symbols of each are those given to the constructor, and training keeps
    them. *)
Theorem Probability_factorises d observation :
  in_support d observation →
  Probability d observation =
    Ok (product
          ((λ dim, default 0%Qc
                     (Probabilities d dim !! default 0 (observation !! dim)))
             <$> seq 0 (Dimensionality d))) ∧
  (∀ numObservations,
     Dimensionality (of_counts numObservations) = length numObservations ∧
     cardinalities (of_counts numObservations) = numObservations) ∧
  (∀ pro, cardinalities (of_probabilities pro) = length <$> pro) ∧
  (∀ rows d', Train d rows = Ok d' → cardinalities d' = cardinalities d) ∧
  (∀ rows w d',
     Train_weighted d rows w = Ok d' → cardinalities d' = cardinalities d).
Proof.
  intros Hin. split.
  { rewrite Probability_selected by exact Hin. f_equal. f_equal.
    apply selected_by_index. by apply in_support_length. }
  split.
  { intros ks. unfold Dimensionality, cardinalities, of_counts. simpl.
    rewrite length_fmap. split; [reflexivity|].
    rewrite <- list_fmap_compose.
    induction ks as [|k ks IH]; [reflexivity|].
    rewrite fmap_cons. simpl. rewrite length_replicate. f_equal. exact IH. }
  split.
  { intros pro. unfold cardinalities, of_probabilities. simpl.
    rewrite <- list_fmap_compose.
    induction pro as [|p pro IH]; [reflexivity|].
    rewrite !fmap_cons. simpl. rewrite length_normalised. f_equal. exact IH. }
  split.
  - intros rows d'. unfold Train. repeat case_decide; try discriminate.
    intros [= <-]. unfold cardinalities. simpl.
    apply lengths_zip_with; [|assumption].
    intros p r. rewrite length_normalised, length_fmap, length_seq. reflexivity.
  - intros rows w d'. unfold Train_weighted. repeat case_decide; try discriminate.
    intros [= <-]. unfold cardinalities. simpl.
    apply lengths_zip_with; [|assumption].
    intros p r. rewrite length_normalised, length_fmap, length_seq. reflexivity.
Qed.

End DiscreteFacts.

(** ** The discrete distribution: the whole support *)

Section DiscreteTotal.
Import Discrete.









(** The constructors store vectors that sum to one. *)
Lemma of_counts_sums numObservations :
  Forall (λ n, 0 < n) numObservations →
  Forall (λ p, accu p = 1%Qc) (probabilities (of_counts numObservations)).
Proof.
  intros Hn. unfold of_counts. simpl. apply Forall_fmap.
  eapply Forall_impl; [exact Hn|]. intros n Hpos. simpl. by apply accu_uniform.
Qed.

Lemma accu_normalised counts :
  0 < length counts → accu (normalised counts) = 1%Qc.
Proof.
  intros Hlen. unfold normalised. case_decide as Hz.
  - by apply accu_uniform.
  - by apply accu_divided.
Qed.

Lemma of_probabilities_sums pro :
  Forall (λ p, 0 < length p) pro →
  Forall (λ p, accu p = 1%Qc) (probabilities (of_probabilities pro)).
Proof.
  intros Hp. unfold of_probabilities. simpl. apply Forall_fmap.
  eapply Forall_impl; [exact Hp|]. intros p Hne. simpl. by apply accu_normalised.
Qed.

Lemma zip_with_normalised_sums {A} (counts : list Qc → A → list Qc) ps
    (rows : list A) :
  (∀ p r, length (counts p r) = length p) →
  Forall (λ p, 0 < length p) ps →
  Forall (λ p, accu p = 1%Qc)
    (zip_with (λ p r, normalised (counts p r)) ps rows).
Proof.
  intros Hc Hps. revert rows.
  induction Hps as [|p ps Hp _ IH]; intros rows; [constructor|].
  destruct rows as [|r rows]; [constructor|]. simpl.
  constructor; [|apply IH].
  apply accu_normalised. by rewrite Hc.
Qed.

(** Training stores vectors that sum to one. *)
Lemma Train_sums d rows d' :
  Forall (λ k, 0 < k) (cardinalities d) →
  Train d rows = Ok d' →
  Forall (λ p, accu p = 1%Qc) (probabilities d').
Proof.
  intros Hk. unfold Train. repeat case_decide; try discriminate.
  intros [= <-]. simpl.
  apply (zip_with_normalised_sums
           (λ p row, (λ s, qc_of_nat (occurrences s row)) <$> seq 0 (length p))).
  - intros p r. by rewrite length_fmap, length_seq.
  - unfold cardinalities in Hk. rewrite Forall_fmap in Hk. exact Hk.
Qed.

Lemma Train_weighted_sums d rows w d' :
  Forall (λ k, 0 < k) (cardinalities d) →
  Train_weighted d rows w = Ok d' →
  Forall (λ p, accu p = 1%Qc) (probabilities d').
Proof.
  intros Hk. unfold Train_weighted. repeat case_decide; try discriminate.
  intros [= <-]. simpl.
  apply (zip_with_normalised_sums
           (λ p row, (λ s, weight_of s row w) <$> seq 0 (length p))).
  - intros p r. by rewrite length_fmap, length_seq.
  - unfold cardinalities in Hk. rewrite Forall_fmap in Hk. exact Hk.
Qed.

(** Three symbols, with the vector "0.3 0.3 0.3" assigned through
    [Probabilities()]. *)
Definition assigned_thirds : DiscreteDistribution :=
  set_Probabilities (of_count 3) 0 (Q2Qc <$> [0.3; 0.3; 0.3]%Q).

Example assigned_thirds_total : returns (total_probability assigned_thirds) 0.9.
Proof. vm_compute. reflexivity. Qed.



Lemma Probability_of_count n s :
  s < n → Probability (of_count n) [s] = Ok (1 / qc_of_nat n)%Qc.
Proof.
  intros Hs. rewrite Probability_selected.
  - unfold selected. simpl. rewrite lookup_replicate_2 by exact Hs.
    simpl. f_equal. unfold product. simpl. ring.
  - unfold in_support, cardinalities. simpl. rewrite length_replicate.
    repeat constructor. exact Hs.
Qed.

(** C8.  A distribution constructed with 5 outcomes gives each of the
    symbols 0 to 4 the probability 0.2. *)
Theorem five_outcomes_uniform s :
  s < 5 → Probability (of_count 5) [s] = Ok (Q2Qc 0.2).
Proof.
  intros Hs. rewrite Probability_of_count by exact Hs. f_equal.
  apply Qc_is_canon. reflexivity.
Qed.

Lemma five_outcomes_uniform_witness :
  Probability (of_count 5) [4] = Ok (Q2Qc 0.2).
Proof. apply (five_outcomes_uniform 4). lia. Defined.

Lemma Probability_factorises_witness :
  Probability (of_counts [4; 4; 4; 4]) [0; 1; 2; 3] =
    Ok (product
          ((λ dim, default 0%Qc
                     (Probabilities (of_counts [4; 4; 4; 4]) dim
                        !! default 0 ([0; 1; 2; 3] !! dim)))
             <$> seq 0 (Dimensionality (of_counts [4; 4; 4; 4])))).
Proof.
  apply (Probability_factorises (of_counts [4; 4; 4; 4]) [0; 1; 2; 3]).
  repeat constructor.
Defined.

End DiscreteTotal.

(** ** Fitting the continuous distributions *)

#[export] Instance Qc_elem : Elem Qc :=
  {| zero := 0%Qc; add := Qcplus; mul := Qcmult |}.

(** Row [i] of a data matrix: feature [i] of every observation. *)
Definition row (data : Mat Qc) (i : nat) : list Qc :=
  (λ j, at_ data i j) <$> seq 0 (n_cols data).

Definition rows (data : Mat Qc) : list (list Qc) :=
  row data <$> seq 0 (n_rows data).

Definition mean_of (xs : list Qc) : Qc :=
  (accu xs / qc_of_nat (length xs))%Qc.

Definition weighted_mean (w xs : list Qc) : Qc :=
  (accu (zip_with Qcmult w xs) / accu w)%Qc.

(** The terms [(x - mx) * (y - my)] of two rows about their means. *)
Definition deviations (xs ys : list Qc) (mx my : Qc) : list Qc :=
  zip_with (λ x y, (x - mx) * (y - my))%Qc xs ys.

Module DiagonalGaussian.

(** Modelled from the spec: [DiagonalGaussianDistribution::Train] is not
    among the sources, only its tests are.  The covariance is one variance per
    feature.  [DiagonalGaussianUnbiasedEstimatorTest] fixes the weighted
    estimate (the weights are divided by their sum, the weighted squared
    deviations are divided by one minus the sum of the squared weights), and
    [DiagonalGaussianWeightedParametersReductionTest] with it the unweighted
    one (divisor [n - 1]). *)
Record DiagonalGaussianDistribution : Type := mkDiagonal {
  Mean : list Qc;
  Covariance : list Qc
}.

(** Modelled from the spec: [DiagonalGaussianDistribution::Train(
    observations)], not among the sources: the sample mean and the sample variance
    of each feature (divisor [n - 1]). *)
Definition Train (observations : Mat Qc) : DiagonalGaussianDistribution :=
  let n := n_cols observations in
  let mean := mean_of <$> rows observations in
  mkDiagonal mean
    ((λ '(a, ma), accu (deviations a a ma ma) / qc_of_nat (n - 1))%Qc
       <$> zip (rows observations) mean).

(** Modelled from the spec: [DiagonalGaussianDistribution::Train(
    observations, probabilities)], not among the sources: the unbiased weighted
    estimate of [DiagonalGaussianUnbiasedEstimatorTest]. *)
Definition Train_weighted (observations : Mat Qc) (probabilities : list Qc)
  : DiagonalGaussianDistribution :=
  let normalizedProbs := (λ p, p / accu probabilities)%Qc <$> probabilities in
  let mean := (λ a, accu (zip_with Qcmult normalizedProbs a))
                <$> rows observations in
  let sumSq := accu ((λ p, p * p)%Qc <$> normalizedProbs) in
  mkDiagonal mean
    ((λ '(a, ma),
        accu (zip_with Qcmult normalizedProbs (deviations a a ma ma))
        / (1 - sumSq))%Qc
       <$> zip (rows observations) mean).

End DiagonalGaussian.

Module Gamma.
Section Fit.

(** The logarithm, and the iterative fit of one feature's [alpha] and
    [beta] to the three statistics it is given. *)
Context (log : Qc → Qc) (fit : Qc → Qc → Qc → Qc * Qc).

(** Modelled from the spec: [GammaDistribution::Train] is not among the sources,
    only its tests are.  The fit is iterative on statistics of the data;
    [GammaDistributionTrainStatisticsTest] names them: the logarithm of the
    mean, the mean of the logarithms and the mean, per feature.  Weighted
    training uses the weighted means. *)
Record GammaDistribution : Type := mkGamma {
  Alpha : list Qc;
  Beta : list Qc
}.

(** Modelled from the spec: [GammaDistribution::Train(logMeanx, meanLogx,
    meanx)], not among the sources: the iterative fit, feature by feature. *)
Definition Train_statistics (logMeanx meanLogx meanx : list Qc)
  : GammaDistribution :=
  let fitted :=
    zip_with (λ lm '(ml, m), fit lm ml m) logMeanx (zip meanLogx meanx) in
  mkGamma (fst <$> fitted) (snd <$> fitted).

(** Modelled from the spec: [GammaDistribution::Train(rdata)], not
    among the sources: the fit to the statistics of the data. *)
Definition Train (rdata : Mat Qc) : GammaDistribution :=
  let meanLogx := (λ a, mean_of (log <$> a)) <$> rows rdata in
  let meanx := mean_of <$> rows rdata in
  let logMeanx := log <$> meanx in
  Train_statistics logMeanx meanLogx meanx.

(** Modelled from the spec: [GammaDistribution::Train(rdata,
    probabilities)], not among the sources: the fit to the weighted statistics. *)
Definition Train_weighted (rdata : Mat Qc) (probabilities : list Qc)
  : GammaDistribution :=
  let meanLogx := (λ a, weighted_mean probabilities (log <$> a)) <$> rows rdata in
  let meanx := weighted_mean probabilities <$> rows rdata in
  let logMeanx := log <$> meanx in
  Train_statistics logMeanx meanLogx meanx.

End Fit.
End Gamma.

Module TrainingTests.

(** [DiagonalGaussianUnbiasedEstimatorTest]: the means are 4.5, 4.4, 3.5
    and 6.8; the variances 3.7857142857..., 6.3428571428..., 6.6428571428...
    and 2.2285714285... are 53/14, 222/35, 93/14 and 78/35. *)
Definition observations : Mat Qc :=
  mkMat 4 4 (Q2Qc <$> [3; 2; 1; 6;  5; 6; 4; 8;  2; 8; 2; 4;  7; 3; 7; 7]%Q).

Definition probs : list Qc := Q2Qc <$> [0.3; 0.4; 0.1; 0.2]%Q.

Example unbiased_estimator :
  let d := DiagonalGaussian.Train_weighted observations probs in
  same_values (DiagonalGaussian.Mean d) [4.5; 4.4; 3.5; 6.8]%Q = true ∧
  same_values (DiagonalGaussian.Covariance d)
    [53 # 14; 222 # 35; 93 # 14; 78 # 35]%Q = true.
Proof. split; vm_compute; reflexivity. Qed.

(** [DiagonalGaussianWeightedParametersReductionTest], on these
    observations: equal weights 0.25 give what unweighted training gives. *)
Example equal_weights :
  let d1 := DiagonalGaussian.Train observations in
  let d2 := DiagonalGaussian.Train_weighted observations
              (Q2Qc <$> [0.25; 0.25; 0.25; 0.25]%Q) in
  same_values (DiagonalGaussian.Mean d2) (this <$> DiagonalGaussian.Mean d1) = true ∧
  same_values (DiagonalGaussian.Covariance d2)
    (this <$> DiagonalGaussian.Covariance d1) = true.
Proof. split; vm_compute; reflexivity. Qed.

End TrainingTests.

(** ** Training with every weight equal to one *)

Section UnitWeights.












End UnitWeights.

Section UnitWeightsTraining.







End UnitWeightsTraining.

(** ** Multihead attention *)

(** What softmax and the scaling of the scores need of the element type. *)
Class ElemExp (E : Type) : Type := {
  exp : E → E;
  div : E → E → E;
  sqrt_of_nat : nat → E
}.

Module MultiheadAttention.
Section Layer.
Context {E : Type} `{Elem E} `{ElemExp E}.

(** *** More matrix operations *)

Definition is_empty (A : Mat E) : bool := bool_decide (n_elem A = 0).

(** [A + B]. *)
Definition mat_plus (A B : Mat E) : result (Mat E) :=
  if decide (n_rows A = n_rows B ∧ n_cols A = n_cols B) then
    Ok (generate (n_rows A) (n_cols A) (λ i j, add (at_ A i j) (at_ B i j)))
  else Throw (LogicError "addition: incompatible matrix dimensions").

(** [A.each_row() += v]. *)
Definition each_row_plus (A v : Mat E) : result (Mat E) :=
  if decide (n_rows v = 1 ∧ n_cols v = n_cols A) then
    Ok (generate (n_rows A) (n_cols A) (λ i j, add (at_ A i j) (at_ v 0 j)))
  else Throw (LogicError "each_row(): incompatible size").

(** [A / c]. *)
Definition divided_by (A : Mat E) (c : E) : Mat E :=
  generate (n_rows A) (n_cols A) (λ i j, div (at_ A i j) c).

(** [A.cols(first, first + count - 1)]. *)
Definition cols (A : Mat E) (first count : nat) : result (Mat E) :=
  if decide (first + count ≤ n_cols A) then
    Ok (generate (n_rows A) count (λ i j, at_ A i (first + j)))
  else Throw (LogicError "Mat::cols(): indices out of bounds or incorrectly used").

(** Softmax along each row. *)
Definition softmax_rows (A : Mat E) : Mat E :=
  generate (n_rows A) (n_cols A)
    (λ i j, div (exp (at_ A i j)) (accu_upto (n_cols A) (λ k, exp (at_ A i k)))).

(** The matrices of a list side by side; each has [r] rows and [c]
    columns. *)
Definition side_by_side (r c : nat) (parts : list (Mat E)) : result (Mat E) :=
  if decide (Forall (λ P, n_rows P = r ∧ n_cols P = c) parts) then
    Ok (generate r (c * length parts)
          (λ i j, at_ (default (mkMat 0 0 []) (parts !! (j / c))) i (j mod c)))
  else Throw (LogicError "join_rows(): number of rows must be the same").

(** [output.col(j) = X]. *)
Definition col_assign (output : Mat E) (j : nat) (X : Mat E) : result (Mat E) :=
  if decide (j < n_cols output) then
    if decide (n_rows X = n_rows output ∧ n_cols X = 1) then
      Ok (generate (n_rows output) (n_cols output)
            (λ i k, if decide (k = j) then at_ X i 0 else at_ output i k))
    else Throw (LogicError "copy into submatrix: incompatible matrix dimensions")
  else Throw (LogicError "Mat::col(): index out of bounds").

(** A block of [r * c] cells of column [j], from row [first] on, as an [r]
    by [c] matrix. *)
Definition block (input : Mat E) (j first r c : nat) : Mat E :=
  generate r c (λ i k, at_ input (first + (i + k * r)) j).

(** The results of [f] on each element, or the first exception. *)
Fixpoint for_each {A B} (f : A → result B) (l : list A) : result (list B) :=
  match l with
  | [] => Ok []
  | a :: l' => b ← f a; bs ← for_each f l'; Ok (b :: bs)
  end.

(** *** The layer *)

(** Modelled from the spec: the [MultiheadAttention] layer is not
    among the sources, only its tests are.  The spec gives the forward pass: the input
    column is split into query, key and value by the target and source
    lengths and the embedding dimension; each is projected; per head the
    scaled products of queries and keys get the masks added and are
    softmaxed over the source axis, then weight the values; the heads are
    concatenated and projected.  The test gives the sizes: the attention
    mask is target by source, the key padding mask one row over the source,
    the output has embedding-dimension times target-length rows. *)
Record MultiheadAttentionType : Type := mkAttention {
  tgtSeqLen : nat;
  srcSeqLen : nat;
  embedDim : nat;
  numHeads : nat;
  headDim : nat;
  attnMask : Mat E;
  keyPaddingMask : Mat E;
  queryWt : Mat E;
  keyWt : Mat E;
  valueWt : Mat E;
  outWt : Mat E;
  qBias : Mat E;
  kBias : Mat E;
  vBias : Mat E;
  outBias : Mat E
}.

(** Modelled from the spec: one of the three input projections of the
    forward pass, not among the sources; the result has one row per position. *)
Definition project (W b x : Mat E) : result (Mat E) :=
  y ← mat_mul W x;
  y ← each_col_plus y b;
  Ok (trans y).

(** Modelled from the spec: the attention of head [h] in the forward pass,
    not among the sources: the head's columns of the projections, the products of
    queries and keys, the masks, the softmax over the source axis, the
    weighted values. *)
Definition attend (L : MultiheadAttentionType) (qProj kProj vProj : Mat E)
    (h : nat) : result (Mat E) :=
  q ← cols qProj (h * headDim L) (headDim L);
  k ← cols kProj (h * headDim L) (headDim L);
  v ← cols vProj (h * headDim L) (headDim L);
  scores ← mat_mul q (trans k);
  scores ← (if is_empty (attnMask L) then Ok scores
            else mat_plus scores (attnMask L));
  scores ← (if is_empty (keyPaddingMask L) then Ok scores
            else each_row_plus scores (keyPaddingMask L));
  mat_mul (softmax_rows scores) v.

(** Modelled from the spec: the forward pass on one column of the batch,
    not among the sources. *)
Definition Forward_column (L : MultiheadAttentionType) (input : Mat E)
    (j : nat) : result (Mat E) :=
  let e := embedDim L in
  let q := block input j 0 e (tgtSeqLen L) in
  let k := block input j (e * tgtSeqLen L) e (srcSeqLen L) in
  let v := block input j (e * (tgtSeqLen L + srcSeqLen L)) e (srcSeqLen L) in
  qProj ← project (queryWt L) (qBias L) q;
  kProj ← project (keyWt L) (kBias L) k;
  vProj ← project (valueWt L) (vBias L) v;
  let qProj := divided_by qProj (sqrt_of_nat (headDim L)) in
  heads ← for_each (attend L qProj kProj vProj) (seq 0 (numHeads L));
  attnOut ← side_by_side (tgtSeqLen L) (headDim L) heads;
  out ← mat_mul attnOut (outWt L);
  out ← each_row_plus out (outBias L);
  Ok (vectorise (trans out)).

(** Modelled from the spec: [MultiheadAttention::Forward(input, output)],
    not among the sources.  An input of another row count is a fatal error, as the
    spec has dimensionality mismatches; the output is sized and filled
    column by column. *)
Definition Forward (L : MultiheadAttentionType) (input : Mat E)
  : result (Mat E) :=
  if decide (n_rows input ≠ embedDim L * (tgtSeqLen L + 2 * srcSeqLen L)) then
    Throw (Fatal "Incorrect input dimensions!")
  else
    foldl (λ acc j,
             output ← acc;
             column ← Forward_column L input j;
             col_assign output j column)
          (Ok (generate (embedDim L * tgtSeqLen L) (n_cols input) (λ _ _, zero)))
          (seq 0 (n_cols input)).

Definition has_shape (A : Mat E) (r c : nat) : Prop :=
  n_rows A = r ∧ n_cols A = c.

(** The sizes of the parameters, and of the masks when there are any. *)
Definition configured (L : MultiheadAttentionType) : Prop :=
  headDim L * numHeads L = embedDim L ∧
  has_shape (queryWt L) (embedDim L) (embedDim L) ∧
  has_shape (keyWt L) (embedDim L) (embedDim L) ∧
  has_shape (valueWt L) (embedDim L) (embedDim L) ∧
  has_shape (outWt L) (embedDim L) (embedDim L) ∧
  has_shape (qBias L) (embedDim L) 1 ∧
  has_shape (kBias L) (embedDim L) 1 ∧
  has_shape (vBias L) (embedDim L) 1 ∧
  has_shape (outBias L) 1 (embedDim L) ∧
  (is_empty (attnMask L) = false →
   has_shape (attnMask L) (tgtSeqLen L) (srcSeqLen L)) ∧
  (is_empty (keyPaddingMask L) = false →
   has_shape (keyPaddingMask L) 1 (srcSeqLen L)).

End Layer.
Arguments MultiheadAttentionType E : clear implicits.
End MultiheadAttention.

(** ** Multihead attention: the sizes through the forward pass *)

Section AttentionFacts.
Context {E : Type} `{Elem E} `{ElemExp E}.
Import MultiheadAttention.
Implicit Types (L : MultiheadAttentionType E) (A B W b x : Mat E).

Lemma project_shape W b x e :
  has_shape W e e → has_shape b e 1 → n_rows x = e →
  ∃ y, project W b x = Ok y ∧ has_shape y (n_cols x) e.
Proof.
  intros [HWr HWc] [Hbr Hbc] Hx. unfold project.
  rewrite mat_mul_ok by congruence. simpl.
  rewrite each_col_plus_ok by (simpl; congruence). simpl.
  eexists. split; [reflexivity|]. split; simpl; congruence.
Qed.

Lemma for_each_shape {T U} (f : T → result U) (P : U → Prop) (l : list T) :
  (∀ t, t ∈ l → ∃ u, f t = Ok u ∧ P u) →
  ∃ us, for_each f l = Ok us ∧ Forall P us ∧ length us = length l.
Proof.
  induction l as [|t l IH]; intros Hf.
  - exists []. repeat split. constructor.
  - destruct (Hf t) as (u0 & Hu & HP); [left|].
    destruct IH as (us & Hus & HPs & Hlen).
    { intros t' Ht'. apply Hf. by right. }
    exists (u0 :: us). simpl. rewrite Hu. simpl. rewrite Hus. simpl.
    repeat split; [by constructor | by rewrite Hlen].
Qed.

Lemma attend_shape L qProj kProj vProj h :
  configured L → h < numHeads L →
  has_shape qProj (tgtSeqLen L) (embedDim L) →
  has_shape kProj (srcSeqLen L) (embedDim L) →
  has_shape vProj (srcSeqLen L) (embedDim L) →
  ∃ o, attend L qProj kProj vProj h = Ok o ∧
       has_shape o (tgtSeqLen L) (headDim L).
Proof.
  intros (Hhd & _ & _ & _ & _ & _ & _ & _ & _ & Hmask & Hpad) Hh
    [Hqr Hqc] [Hkr Hkc] [Hvr Hvc].
  assert (Hin : h * headDim L + headDim L ≤ embedDim L) by nia.
  unfold attend, cols.
  rewrite !decide_True by lia. simpl.
  rewrite mat_mul_ok by reflexivity. simpl.
  destruct (is_empty (attnMask L)) eqn:Hm; simpl.
  - destruct (is_empty (keyPaddingMask L)) eqn:Hp; simpl.
    + rewrite mat_mul_ok by (simpl; congruence).
      eexists. split; [reflexivity|]. split; simpl; congruence.
    + destruct (Hpad eq_refl) as [Hpr Hpc].
      unfold each_row_plus. rewrite decide_True by (simpl; split; congruence).
      simpl. rewrite mat_mul_ok by (simpl; congruence).
      eexists. split; [reflexivity|]. split; simpl; congruence.
  - destruct (Hmask eq_refl) as [Hmr Hmc].
    unfold mat_plus. rewrite decide_True by (simpl; split; congruence). simpl.
    destruct (is_empty (keyPaddingMask L)) eqn:Hp; simpl.
    + rewrite mat_mul_ok by (simpl; congruence).
      eexists. split; [reflexivity|]. split; simpl; congruence.
    + destruct (Hpad eq_refl) as [Hpr Hpc].
      unfold each_row_plus. rewrite decide_True by (simpl; split; congruence).
      simpl. rewrite mat_mul_ok by (simpl; congruence).
      eexists. split; [reflexivity|]. split; simpl; congruence.
Qed.

Lemma Forward_column_shape L (input : Mat E) j :
  configured L →
  ∃ column, Forward_column L input j = Ok column ∧
            has_shape column (embedDim L * tgtSeqLen L) 1.
Proof.
  intros Hcfg.
  pose proof Hcfg as (Hhd & HWq & HWk & HWv & HWo & Hbq & Hbk & Hbv & Hbo & _).
  unfold Forward_column.
  destruct (project_shape (queryWt L) (qBias L)
              (block input j 0 (embedDim L) (tgtSeqLen L)) (embedDim L))
    as (qProj & -> & Hq); [done..|].
  destruct (project_shape (keyWt L) (kBias L)
              (block input j (embedDim L * tgtSeqLen L) (embedDim L) (srcSeqLen L))
              (embedDim L))
    as (kProj & -> & Hk); [done..|].
  destruct (project_shape (valueWt L) (vBias L)
              (block input j (embedDim L * (tgtSeqLen L + srcSeqLen L))
                 (embedDim L) (srcSeqLen L))
              (embedDim L))
    as (vProj & -> & Hv); [done..|].
  simpl.
  destruct (for_each_shape
              (attend L (divided_by qProj (sqrt_of_nat (headDim L))) kProj vProj)
              (λ o, has_shape o (tgtSeqLen L) (headDim L))
              (seq 0 (numHeads L)))
    as (heads & -> & Hheads & Hlen).
  { intros h Hh. apply elem_of_seq in Hh.
    apply attend_shape; [exact Hcfg | lia | | exact Hk | exact Hv].
    destruct Hq as [Hqr Hqc]. split; simpl; assumption. }
  simpl. unfold side_by_side. rewrite decide_True by exact Hheads. simpl.
  rewrite length_seq in Hlen. rewrite Hlen.
  destruct HWo as [HWor HWoc]. destruct Hbo as [Hbor Hboc].
  rewrite mat_mul_ok by (simpl; congruence). simpl.
  unfold each_row_plus. rewrite decide_True by (simpl; split; congruence).
  simpl. eexists. split; [reflexivity|].
  split; [|reflexivity]. unfold vectorise, n_elem. simpl. congruence.
Qed.

Lemma Forward_columns_shape L (input output : Mat E) (js : list nat) :
  configured L →
  has_shape output (embedDim L * tgtSeqLen L) (n_cols input) →
  Forall (λ j, j < n_cols input) js →
  ∃ output',
    foldl (λ acc j,
             output ← acc;
             column ← Forward_column L input j;
             col_assign output j column) (Ok output) js = Ok output' ∧
    has_shape output' (embedDim L * tgtSeqLen L) (n_cols input).
Proof.
  intros Hcfg. revert output.
  induction js as [|j js IH]; intros output Hout Hjs.
  - exists output. done.
  - apply Forall_cons in Hjs as [Hj Hjs]. simpl.
    destruct (Forward_column_shape L input j Hcfg) as (column & -> & Hcr & Hcc).
    simpl. destruct Hout as [Hor Hoc].
    unfold col_assign. rewrite decide_True by lia.
    rewrite decide_True by (split; congruence).
    apply IH; [|exact Hjs]. split; simpl; assumption.
Qed.

(** C9.  For a layer with parameters and masks of the configured sizes and
    an input with [embedDim * (tgtSeqLen + 2 * srcSeqLen)] rows, [Forward]
    returns an output with [embedDim * tgtSeqLen] rows and one column per
    input column. *)
Theorem Forward_output_shape L (input : Mat E) :
  configured L →
  n_rows input = embedDim L * (tgtSeqLen L + 2 * srcSeqLen L) →
  ∃ output,
    Forward L input = Ok output ∧
    n_rows output = embedDim L * tgtSeqLen L ∧
    n_cols output = n_cols input.
Proof.
  intros Hcfg Hin. unfold Forward.
  rewrite decide_False by (intros Hne; apply Hne; exact Hin).
  destruct (Forward_columns_shape L input
              (generate (embedDim L * tgtSeqLen L) (n_cols input) (λ _ _, zero))
              (seq 0 (n_cols input)) Hcfg)
    as (output & Hfold & Hr & Hc).
  - split; reflexivity.
  - apply Forall_forall. intros j Hj. apply elem_of_seq in Hj. lia.
  - exists output. split; [exact Hfold|]. split; assumption.
Qed.

End AttentionFacts.

(** ** [SimpleMultiheadAttentionTest], over the integers *)

Module AttentionExample.
Import LinearExample MultiheadAttention.

(** Integer stand-ins for the exponential, the division and the square
    root; the sizes do not depend on them. *)
#[export] Instance Z_exp : ElemExp Z := {|
  exp := λ x, (if x <? 0 then 1 else 2 + x)%Z;
  div := Z.div;
  sqrt_of_nat := λ n, Z.of_nat (Nat.sqrt n)
|}.

Definition tLen : nat := 5.
Definition sLen : nat := tLen.
Definition embedDim' : nat := 4.
Definition numHeads' : nat := 2.
Definition bsz : nat := 3.

Definition lowest : Z := (-1000000)%Z.

Definition attnMask' : Mat Z :=
  generate tLen sLen (λ i j, if decide (i < j) then lowest else 0%Z).

Definition keyPaddingMask' : Mat Z :=
  generate 1 sLen (λ _ j, if decide (j = sLen - 1) then lowest else 0%Z).

Definition module : MultiheadAttentionType Z :=
  mkAttention tLen sLen embedDim' numHeads' (embedDim' / numHeads')
    attnMask' keyPaddingMask'
    (generate embedDim' embedDim' (λ i j, Z.of_nat (i + j)))
    (generate embedDim' embedDim' (λ i j, Z.of_nat (i * j)))
    (generate embedDim' embedDim' (λ i j, Z.of_nat (2 * i + j)))
    (generate embedDim' embedDim' (λ i j, Z.of_nat (i + 3 * j)))
    (generate embedDim' 1 (λ i _, Z.of_nat i))
    (generate embedDim' 1 (λ i _, 1%Z))
    (generate embedDim' 1 (λ i _, Z.of_nat (2 * i)))
    (generate 1 embedDim' (λ _ j, Z.of_nat j)).

Definition query : Mat Z :=
  generate (embedDim' * tLen) bsz (λ i j, Z.of_nat (i + 2 * j)).

(** [join_cols(join_cols(query, query), query)]. *)
Definition input' : Mat Z :=
  generate (3 * (embedDim' * tLen)) bsz
    (λ i j, at_ query (i mod (embedDim' * tLen)) j).

Definition size_of (r : result (Mat Z)) : option (nat * nat) :=
  match r with
  | Ok output => Some (n_rows output, n_cols output)
  | Throw _ => None
  end.

Example forward_size :
  size_of (Forward module input') = Some (embedDim' * tLen, bsz).
Proof. vm_compute. reflexivity. Qed.

Lemma module_configured : configured module.
Proof.
  repeat split; try reflexivity; intros _; reflexivity.
Qed.

End AttentionExample.

Section AttentionWitness.
Import LinearExample AttentionExample.

Lemma Forward_output_shape_witness :
  ∃ output,
    MultiheadAttention.Forward module input' = Ok output ∧
    n_rows output = 4 * 5 ∧ n_cols output = 3.
Proof.
  apply (Forward_output_shape module input').
  - repeat split; try reflexivity; intros _; reflexivity.
  - reflexivity.
Defined.

End AttentionWitness.

(** * Further properties of the code *)

(** ** The linear layer: size checks, batches and memory *)

Section LinearChecks.
Context {E : Type} `{Elem E}.
Implicit Types (L : Linear.LinearType E) (heap : list E).

Lemma columns_ext (r s c : nat) (f g : nat → nat → E) :
  (∀ i j, i < r → s ≤ j < s + c → f i j = g i j) →
  flat_map (λ j, (λ i, f i j) <$> seq 0 r) (seq s c) =
  flat_map (λ j, (λ i, g i j) <$> seq 0 r) (seq s c).
Proof.
  revert s. induction c as [|c IH]; intros s Hfg; [reflexivity|].
  simpl. f_equal.
  - apply list_fmap_ext. intros k i Hk.
    apply lookup_seq in Hk as [-> Hk]. apply Hfg; lia.
  - apply IH. intros i j Hi Hj. apply Hfg; lia.
Qed.

Lemma generate_ext (r c : nat) (f g : nat → nat → E) :
  (∀ i j, i < r → j < c → f i j = g i j) → generate r c f = generate r c g.
Proof.
  intros Hfg. unfold generate. f_equal. apply columns_ext.
  intros i j Hi Hj. apply Hfg; lia.
Qed.

(** Column [j] of a matrix ([input.col(j)]), as a matrix of its own. *)
Definition column (A : Mat E) (j : nat) : Mat E :=
  generate (n_rows A) 1 (λ i _, at_ A i j).

(** What [Forward] returns when the sizes agree. *)
Lemma Forward_value heap L (input W b : Mat E) :
  Linear.load heap (Linear.weight L) = Ok W →
  Linear.load heap (Linear.bias L) = Ok b →
  n_cols W = n_rows input → n_rows b = n_rows W → n_cols b = 1 →
  Linear.Forward heap L input =
  Ok (generate (n_rows W) (n_cols input)
        (λ i j, add (accu_upto (n_cols W) (λ k, mul (at_ W i k) (at_ input k j)))
                    (at_ b i 0))).
Proof.
  intros HW Hb Hin Hbr Hbc. unfold Linear.Forward. rewrite HW, Hb. simpl.
  rewrite mat_mul_ok by exact Hin. simpl.
  rewrite each_col_plus_ok by (simpl; assumption). simpl. f_equal.
  apply generate_ext. intros i j Hi Hj. by rewrite generate_at.
Qed.

(** X1.  With readable parameters of the layer's sizes, [Forward] returns
    a value exactly when the input has [inSize] rows; any other input makes
    the product throw. *)
Theorem Forward_accepts heap L (input : Mat E) :
  Linear.shaped L →
  is_ok (Linear.load heap (Linear.weight L)) = true →
  is_ok (Linear.load heap (Linear.bias L)) = true →
  is_ok (Linear.Forward heap L input) = true ↔ n_rows input = Linear.inSize L.
Proof.
  intros Hsh HW Hb. split.
  - intros Hok. destruct (decide (n_rows input = Linear.inSize L)) as [|Hne]; [done|].
    rewrite (Forward_mismatch heap L input Hsh Hne) in Hok. discriminate.
  - intros Hin. destruct Hsh as (HWr & HWc & Hbr & Hbc).
    apply is_ok_inv in HW as [W HW]. apply is_ok_inv in Hb as [b Hb].
    destruct (load_shape _ _ _ HW) as [HWr' HWc'].
    destruct (load_shape _ _ _ Hb) as [Hbr' Hbc'].
    rewrite (Forward_value heap L input W b) by congruence. reflexivity.
Qed.

(** X2.  With a readable weight matrix of the layer's sizes, [Backward]
    returns a value exactly when [gy] has [outSize] rows, whatever the
    [input] argument is. *)
Theorem Backward_accepts heap L (input gy : Mat E) :
  Linear.shaped L →
  is_ok (Linear.load heap (Linear.weight L)) = true →
  is_ok (Linear.Backward heap L input gy) = true ↔ n_rows gy = Linear.outSize L.
Proof.
  intros (HWr & HWc & _) HW.
  apply is_ok_inv in HW as [W HW].
  destruct (load_shape _ _ _ HW) as [HWr' HWc'].
  unfold Linear.Backward. rewrite HW. simpl. unfold mat_mul. simpl.
  case_decide as Hd; simpl; split; intros Hq; try done; try congruence.
Qed.

(** X3.  The columns of a batch go through [Forward] independently:
    column [j] of the output is what [Forward] returns for column [j] of the
    input alone. *)
Theorem Forward_column_by_column heap L (input : Mat E) j :
  Linear.shaped L →
  is_ok (Linear.load heap (Linear.weight L)) = true →
  is_ok (Linear.load heap (Linear.bias L)) = true →
  n_rows input = Linear.inSize L →
  j < n_cols input →
  ∃ output single,
    Linear.Forward heap L input = Ok output ∧
    Linear.Forward heap L (column input j) = Ok single ∧
    column output j = single.
Proof.
  intros (HWr & HWc & Hbr & Hbc) HW Hb Hin Hj.
  apply is_ok_inv in HW as [W HW]. apply is_ok_inv in Hb as [b Hb].
  destruct (load_shape _ _ _ HW) as [HWr' HWc'].
  destruct (load_shape _ _ _ Hb) as [Hbr' Hbc'].
  rewrite (Forward_value heap L input W b) by congruence.
  rewrite (Forward_value heap L (column input j) W b) by (simpl; congruence).
  eexists _, _. split; [reflexivity|]. split; [reflexivity|].
  unfold column. simpl. apply generate_ext. intros i k Hi Hk.
  rewrite generate_at by lia. f_equal.
  apply accu_upto_ext. intros q Hq. f_equal.
  rewrite generate_at by lia. reflexivity.
Qed.

(** X4.  The columns of a batch go through [Backward] independently. *)
Theorem Backward_column_by_column heap L (input gy : Mat E) j :
  Linear.shaped L →
  is_ok (Linear.load heap (Linear.weight L)) = true →
  n_rows gy = Linear.outSize L →
  j < n_cols gy →
  ∃ g single,
    Linear.Backward heap L input gy = Ok g ∧
    Linear.Backward heap L input (column gy j) = Ok single ∧
    column g j = single.
Proof.
  intros (HWr & HWc & _) HW Hgy Hj.
  apply is_ok_inv in HW as [W HW].
  destruct (load_shape _ _ _ HW) as [HWr' HWc'].
  unfold Linear.Backward. rewrite HW. simpl.
  rewrite !mat_mul_ok by (simpl; congruence). simpl.
  eexists _, _. split; [reflexivity|]. split; [reflexivity|].
  unfold column. simpl. apply generate_ext. intros i k Hi Hk.
  rewrite generate_at by lia.
  apply accu_upto_ext. intros q Hq. f_equal.
  rewrite generate_at by lia. reflexivity.
Qed.

End LinearChecks.


(** ** The linear layer: what [Gradient] checks and what it writes *)

Section GradientChecks.
Context {E : Type} `{Elem E}.
Implicit Types (L : Linear.LinearType E) (heap : list E).

Lemma wrap_pred (k : nat) :
  0 < k → SizeT.fits k → SizeT.wrap (Z.of_nat k - 1) = Z.of_nat (k - 1).
Proof.
  intros Hk Hfit. rewrite SizeT.wrap_small; unfold SizeT.fits in Hfit; lia.
Qed.

Lemma weight_n_elem_fits L :
  Linear.shaped L →
  SizeT.fits (Linear.outSize L * Linear.inSize L) →
  Linear.member_n_elem (Linear.weight L) =
  Z.of_nat (Linear.outSize L * Linear.inSize L).
Proof.
  intros (HWr & HWc & _) Hfit. unfold Linear.member_n_elem.
  rewrite HWr, HWc, <- Nat2Z.inj_mul. apply SizeT.wrap_small.
  unfold SizeT.fits in Hfit. lia.
Qed.

(** The sizes with which [Gradient] gets through its checks. *)
Definition Gradient_sizes L (input error gradient : Mat E) : Prop :=
  n_cols error = n_cols input ∧
  0 < Linear.outSize L * Linear.inSize L ∧
  n_rows error * n_rows input = Linear.outSize L * Linear.inSize L ∧
  n_cols gradient = 1 ∧
  n_rows gradient = Linear.outSize L * Linear.inSize L + n_rows error.

(** The buffer [Gradient] hands to the regularizer: the product
    [error * input.t()] column after column, then the row sums of [error]. *)
Definition Gradient_buffer (input error : Mat E) : Mat E :=
  mkMat (n_rows error * n_rows input + n_rows error) 1
    (mem (generate (n_rows error) (n_rows input)
            (λ i k, accu_upto (n_cols error)
                      (λ j, mul (at_ error i j) (at_ input k j))))
     ++ mem (sum_rows error)).

Lemma generate_one_column (r : nat) (f : nat → nat → E) :
  generate r 1 f = mkMat r 1 ((λ i, f i 0) <$> seq 0 r).
Proof. unfold generate. simpl. by rewrite app_nil_r. Qed.

Lemma Gradient_value heap L (input error gradient W : Mat E) :
  Linear.shaped L →
  SizeT.fits (Linear.outSize L * Linear.inSize L) →
  SizeT.fits (n_elem gradient) →
  Gradient_sizes L input error gradient →
  Linear.load heap (Linear.weights L) = Ok W →
  Linear.Gradient heap L input error gradient =
  Ok (Linear.Evaluate (Linear.regularizer L) W (Gradient_buffer input error)).
Proof.
  intros Hsh Hfit Hgfit (Hec & Hpos & Hprod & Hgc & Hgr) HW.
  set (o := Linear.outSize L) in *. set (n := Linear.inSize L) in *.
  set (e := n_rows error) in *. set (x := n_rows input) in *.
  assert (He : 0 < e) by nia.
  unfold Linear.Gradient.
  rewrite mat_mul_ok by (simpl; congruence). simpl.
  rewrite (weight_n_elem_fits L Hsh Hfit). fold o n.
  rewrite wrap_pred by assumption.
  rewrite (submat_assign_ok gradient 0 0 (o * n - 1) 0)
    by (simpl; unfold n_elem; simpl; fold e x; lia).
  simpl. unfold n_elem at 1. simpl. rewrite Hgr, Hgc.
  unfold n_elem in Hgfit. rewrite Hgr, Hgc in Hgfit.
  rewrite wrap_pred by (assumption || lia).
  rewrite (submat_assign_ok _ (o * n) 0 ((o * n + e) * 1 - 1) 0)
    by (simpl; fold e; lia).
  simpl. rewrite HW. simpl. do 2 f_equal.
  unfold Gradient_buffer. fold e x. rewrite Hprod.
  rewrite (generate_ext e x
             (λ i k, accu_upto (n_cols error)
                       (λ j, mul (at_ error i j) (at_ (trans input) j k)))
             (λ i k, accu_upto (n_cols error)
                       (λ j, mul (at_ error i j) (at_ input k j)))).
  2:{ intros i k Hi Hk. apply accu_upto_ext. intros j Hj. f_equal.
      apply trans_at; [lia | exact Hk]. }
  set (P := generate e x _).
  assert (HP : length (mem P) = o * n).
  { unfold P. simpl. rewrite length_columns. lia. }
  set (S := sum_rows error).
  assert (HS : length (mem S) = e).
  { unfold S, sum_rows. rewrite generate_one_column. simpl.
    by rewrite length_fmap, length_seq. }
  clearbody P S.
  rewrite generate_one_column. f_equal.
  apply list_eq. intros t. rewrite list_lookup_fmap.
  destruct (decide (t < o * n + e)) as [Ht|Ht].
  2:{ rewrite lookup_seq_ge by lia. simpl. symmetry. apply lookup_ge_None.
      rewrite length_app. lia. }
  rewrite lookup_seq_lt by lia. simpl.
  destruct (decide (t < o * n)) as [Hlow|Hhigh].
  - rewrite decide_False by lia. rewrite generate_at by lia.
    rewrite decide_True by lia. rewrite !Nat.sub_0_r.
    rewrite lookup_app_l by lia.
    unfold at_, vectorise. simpl. rewrite Nat.add_0_r.
    destruct (lookup_lt_is_Some_2 (mem P) t) as [v Hv]; [lia|].
    rewrite Hv. reflexivity.
  - rewrite decide_True by lia.
    rewrite lookup_app_r by lia. rewrite HP.
    unfold at_. simpl. rewrite Nat.add_0_r.
    destruct (lookup_lt_is_Some_2 (mem S) (t - o * n)) as [v Hv]; [lia|].
    rewrite Hv. reflexivity.
Qed.

Lemma is_ok_bind {A B} (m : result A) (f : A → result B) :
  is_ok (m ≫= f) = true → ∃ a, m = Ok a ∧ is_ok (f a) = true.
Proof. destruct m as [a|e]; [eauto | discriminate]. Qed.

Lemma mat_mul_inv (A B P : Mat E) :
  mat_mul A B = Ok P →
  n_cols A = n_rows B ∧ n_rows P = n_rows A ∧ n_cols P = n_cols B.
Proof.
  unfold mat_mul. case_decide; [|discriminate]. intros [= <-]. done.
Qed.

Lemma submat_assign_inv (G X G' : Mat E) (r1 c1 r2 c2 : Z) :
  submat_assign G r1 c1 r2 c2 X = Ok G' →
  (r1 ≤ r2 ∧ c1 ≤ c2 ∧ r2 < Z.of_nat (n_rows G) ∧ c2 < Z.of_nat (n_cols G))%Z ∧
  n_rows X = Z.to_nat r2 - Z.to_nat r1 + 1 ∧
  n_cols X = Z.to_nat c2 - Z.to_nat c1 + 1 ∧
  n_rows G' = n_rows G ∧ n_cols G' = n_cols G.
Proof.
  unfold submat_assign. case_decide as Hb; [|discriminate].
  case_decide as Hs; [|discriminate]. intros [= <-]. simpl. tauto.
Qed.

(** X5.  [Gradient] returns a value only on these sizes: error and input
    have the same number of columns, the layer is not empty, the product of
    the two row counts is [outSize * inSize], and the gradient is one column
    of [outSize * inSize] cells plus one per row of the error.  On any other
    sizes the product or one of the two assignments has thrown. *)
Theorem Gradient_returns_only_on_sizes heap L (input error gradient : Mat E) :
  Linear.shaped L →
  SizeT.fits (Linear.outSize L * Linear.inSize L) →
  SizeT.fits (n_elem gradient) →
  is_ok (Linear.Gradient heap L input error gradient) = true →
  Gradient_sizes L input error gradient.
Proof.
  intros Hsh Hfit Hgfit Hok. unfold Linear.Gradient in Hok.
  rewrite (weight_n_elem_fits L Hsh Hfit) in Hok.
  set (o := Linear.outSize L) in *. set (n := Linear.inSize L) in *.
  apply is_ok_bind in Hok as (P & HP & Hok).
  apply is_ok_bind in Hok as (g1 & Hg1 & Hok).
  apply is_ok_bind in Hok as (g2 & Hg2 & _).
  apply mat_mul_inv in HP as (Hec & HPr & HPc). simpl in Hec, HPc.
  apply submat_assign_inv in Hg1 as (Hb1 & Hr1 & _ & Hg1r & Hg1c).
  apply submat_assign_inv in Hg2 as (Hb2 & Hr2 & _ & _).
  unfold vectorise, n_elem in Hr1. simpl in Hr1. rewrite HPr, HPc in Hr1.
  unfold n_elem in Hb2, Hr2, Hgfit. rewrite Hg1r, Hg1c in Hb2, Hr2.
  simpl in Hr2.
  unfold SizeT.fits in Hfit, Hgfit.
  assert (Hpos : 0 < o * n).
  { destruct (decide (o * n = 0)) as [Hz|]; [|lia]. exfalso.
    rewrite Hz in Hb1. change (Z.of_nat 0 - 1)%Z with (0 - 1)%Z in Hb1.
    rewrite SizeT.wrap_pred_zero in Hb1. nia. }
  rewrite wrap_pred in Hb1, Hr1 by (assumption || exact Hfit).
  rewrite !Nat2Z.id in Hr1. change (Z.to_nat 0) with 0 in Hr1.
  assert (Hgc : n_cols gradient = 1).
  { destruct Hb2 as (Hlo & _ & Hhi & _).
    rewrite SizeT.wrap_small in Hhi by nia. nia. }
  rewrite Hgc, Nat.mul_1_r in Hb2, Hr2.
  rewrite wrap_pred in Hb2, Hr2 by (unfold SizeT.fits; lia).
  rewrite !Nat2Z.id in Hr2.
  unfold Gradient_sizes. fold o n.
  repeat split; [exact Hec | exact Hpos | lia | exact Hgc | lia].
Qed.

(** X6.  When the sizes pass, [Gradient] overwrites every cell of the
    buffer: the regularizer gets [error * input.t()] column after column
    followed by the row sums of [error], and what the buffer held before
    makes no difference. *)
Theorem Gradient_overwrites heap L (input error gradient gradient' W : Mat E) :
  Linear.shaped L →
  SizeT.fits (Linear.outSize L * Linear.inSize L) →
  SizeT.fits (n_elem gradient) →
  Gradient_sizes L input error gradient →
  n_rows gradient' = n_rows gradient →
  n_cols gradient' = n_cols gradient →
  Linear.load heap (Linear.weights L) = Ok W →
  Linear.Gradient heap L input error gradient =
    Ok (Linear.Evaluate (Linear.regularizer L) W (Gradient_buffer input error)) ∧
  Linear.Gradient heap L input error gradient' =
    Linear.Gradient heap L input error gradient.
Proof.
  intros Hsh Hfit Hgfit Hsz Hr Hc HW.
  rewrite (Gradient_value heap L input error gradient W) by assumption.
  split; [reflexivity|].
  apply Gradient_value; try assumption.
  - unfold n_elem in *. by rewrite Hr, Hc.
  - destruct Hsz as (? & ? & ? & ? & ?). unfold Gradient_sizes.
    rewrite Hr, Hc. done.
Qed.

End GradientChecks.

(** ** The linear layer: memory it does not read, and a layer without
       parameters *)

Section LinearMemory.
Context {E : Type} `{Elem E}.
Implicit Types (L : Linear.LinearType E) (heap : list E).

Lemma buffer_unchanged (heap : list E) (ptr total a : nat) (x : E) :
  a < ptr ∨ ptr + total ≤ a →
  take total (drop ptr (<[a := x]> heap)) = take total (drop ptr heap).
Proof.
  intros [Hlow|Hhigh].
  - by rewrite drop_insert_lt.
  - rewrite drop_insert_ge by lia. apply take_insert_ge. lia.
Qed.

(** X7.  After [SetWeights(ptr)] the three passes read nothing but the
    [outSize * inSize + outSize] cells at [ptr]: a write to any other cell
    of the memory changes none of their results. *)
Theorem passes_read_only_the_buffer ptr L heap a x :
  SizeT.fits (Linear.outSize L * Linear.inSize L + Linear.outSize L) →
  ptr + (Linear.outSize L * Linear.inSize L + Linear.outSize L) ≤ length heap →
  a < ptr ∨ ptr + (Linear.outSize L * Linear.inSize L + Linear.outSize L) ≤ a →
  let L' := Linear.SetWeights ptr L in
  let heap' := <[a := x]> heap in
  (∀ input, Linear.Forward heap' L' input = Linear.Forward heap L' input) ∧
  (∀ input gy,
     Linear.Backward heap' L' input gy = Linear.Backward heap L' input gy) ∧
  (∀ input error gradient,
     Linear.Gradient heap' L' input error gradient =
     Linear.Gradient heap L' input error gradient).
Proof.
  intros Hfit Hlen Ha L' heap'.
  destruct (SetWeights_load ptr L heap Hfit Hlen) as (Hw & HW & Hb).
  destruct (SetWeights_load ptr L heap' Hfit) as (Hw' & HW' & Hb').
  { unfold heap'. by rewrite length_insert. }
  unfold heap' in Hw', HW', Hb'. rewrite buffer_unchanged in Hw', HW', Hb' by exact Ha.
  fold heap' in Hw', HW', Hb'. fold L' in Hw, HW, Hb, Hw', HW', Hb'.
  repeat split.
  - intros input. unfold Linear.Forward. by rewrite HW', Hb', HW, Hb.
  - intros input gy. unfold Linear.Backward. by rewrite HW', HW.
  - intros input error gradient. unfold Linear.Gradient. by rewrite Hw', Hw.
Qed.

(** X8.  A default-constructed layer has empty matrices for weight and
    bias: [Forward] throws on every input (the empty bias is no column), and
    so does [Gradient] (the index [n_elem - 1] of the last weight cell wraps
    around). *)
Theorem default_layer_throws heap r (input error gradient : Mat E) :
  SizeT.fits (n_rows gradient) →
  is_ok (Linear.Forward heap (Linear.LinearType_default r) input) = false ∧
  is_ok (Linear.Gradient heap (Linear.LinearType_default r)
           input error gradient) = false.
Proof.
  intros Hfit. split.
  - unfold Linear.Forward. simpl. unfold mat_mul. simpl.
    case_decide; [|reflexivity]. simpl. reflexivity.
  - unfold Linear.Gradient. simpl. unfold mat_mul. simpl.
    case_decide; [|reflexivity]. simpl.
    change (Linear.member_n_elem (Linear.Owned (mkMat 0 0 []))) with 0%Z.
    pose proof (submat_assign_wrapped gradient 0 0 0
                  (vectorise
                     (generate (n_rows error) (n_rows input)
                        (λ i j, accu_upto (n_cols error)
                                  (λ k, mul (at_ error i k)
                                            (at_ (trans input) k j)))))
                  Hfit) as Hthrow.
    destruct (submat_assign gradient 0 0 (SizeT.wrap (0 - 1)) 0 _) as [g|e];
      [discriminate | reflexivity].
Qed.

End LinearMemory.

(** ** The linear layer: [Backward] against [Forward] *)

(** Element types whose addition and multiplication form a commutative
    semiring (the integers, the rationals; floating point only up to
    rounding). *)
Class ElemSemiring (E : Type) `{Elem E} : Type := {
  one : E;
  elem_semiring : semi_ring_theory zero one add mul eq
}.

Section Adjoint.
Context {E : Type} `{ElemSemiring E}.
Implicit Types (L : Linear.LinearType E) (heap : list E).

Add Ring elem_ring : elem_semiring.

Lemma accu_upto_S n (f : nat → E) :
  accu_upto (S n) f = add (accu_upto n f) (f n).
Proof. unfold accu_upto. by rewrite seq_S, foldl_app. Qed.

Lemma accu_upto_zero n : accu_upto n (λ _, zero) = zero.
Proof.
  induction n as [|n IH]; [reflexivity|]. rewrite accu_upto_S, IH. ring.
Qed.

Lemma accu_upto_add n (f g : nat → E) :
  accu_upto n (λ k, add (f k) (g k)) = add (accu_upto n f) (accu_upto n g).
Proof.
  induction n as [|n IH].
  - unfold accu_upto. simpl. ring.
  - rewrite !accu_upto_S, IH. ring.
Qed.

Lemma accu_upto_mul_l n (c : E) (f : nat → E) :
  accu_upto n (λ k, mul c (f k)) = mul c (accu_upto n f).
Proof.
  induction n as [|n IH].
  - unfold accu_upto. simpl. ring.
  - rewrite !accu_upto_S, IH. ring.
Qed.

Lemma accu_upto_mul_r n (c : E) (f : nat → E) :
  accu_upto n (λ k, mul (f k) c) = mul (accu_upto n f) c.
Proof.
  induction n as [|n IH].
  - unfold accu_upto. simpl. ring.
  - rewrite !accu_upto_S, IH. ring.
Qed.

Lemma accu_upto_swap m n (a : nat → nat → E) :
  accu_upto m (λ i, accu_upto n (λ k, a i k)) =
  accu_upto n (λ k, accu_upto m (λ i, a i k)).
Proof.
  induction m as [|m IH].
  - unfold accu_upto at 1. simpl. symmetry. apply accu_upto_zero.
  - rewrite accu_upto_S, IH, <- accu_upto_add.
    apply accu_upto_ext. intros k _. by rewrite accu_upto_S.
Qed.

(** X9.  [Backward] is the transpose of [Forward]: for every column [j] of
    a batch, the product of [gy] with the output of [Forward] is the product
    of the result of [Backward] with the input, plus the product of [gy]
    with the bias. *)
Theorem Backward_adjoint_of_Forward heap L (input gy : Mat E) :
  Linear.shaped L →
  is_ok (Linear.load heap (Linear.weight L)) = true →
  is_ok (Linear.load heap (Linear.bias L)) = true →
  n_rows input = Linear.inSize L →
  n_rows gy = Linear.outSize L →
  n_cols gy = n_cols input →
  ∃ output g,
    Linear.Forward heap L input = Ok output ∧
    Linear.Backward heap L input gy = Ok g ∧
    ∀ j, j < n_cols input →
      accu_upto (Linear.outSize L) (λ i, mul (at_ gy i j) (at_ output i j)) =
      add (accu_upto (Linear.inSize L) (λ k, mul (at_ g k j) (at_ input k j)))
          (accu_upto (Linear.outSize L)
             (λ i, mul (at_ gy i j)
                       (Linear.member_at heap (Linear.bias L) i 0))).
Proof.
  intros (HWr & HWc & Hbr & Hbc) HW Hb Hin Hgy Hcols.
  apply is_ok_inv in HW as [W HW]. apply is_ok_inv in Hb as [b Hb].
  destruct (load_shape _ _ _ HW) as [HWr' HWc'].
  destruct (load_shape _ _ _ Hb) as [Hbr' Hbc'].
  rewrite (Forward_value heap L input W b) by congruence.
  unfold Linear.Backward. rewrite HW. simpl.
  rewrite mat_mul_ok by (simpl; congruence). simpl.
  eexists _, _. split; [reflexivity|]. split; [reflexivity|].
  intros j Hj.
  set (o := Linear.outSize L) in *. set (n := Linear.inSize L) in *.
  rewrite HWr', HWc', HWr, HWc.
  rewrite (accu_upto_ext o _
             (λ i, add (accu_upto n (λ k, mul (mul (at_ gy i j) (at_ W i k))
                                             (at_ input k j)))
                       (mul (at_ gy i j) (at_ b i 0)))).
  2:{ intros i Hi. rewrite generate_at by lia.
      rewrite (accu_upto_ext n
                 (λ k, mul (mul (at_ gy i j) (at_ W i k)) (at_ input k j))
                 (λ k, mul (at_ gy i j) (mul (at_ W i k) (at_ input k j))))
        by (intros k _; ring).
      rewrite accu_upto_mul_l. ring. }
  rewrite accu_upto_add. f_equal.
  - rewrite accu_upto_swap. apply accu_upto_ext. intros k Hk.
    rewrite generate_at by lia. rewrite <- accu_upto_mul_r.
    apply accu_upto_ext. intros i Hi.
    rewrite trans_at by lia. ring.
  - apply accu_upto_ext. intros i Hi. f_equal.
    apply (load_at heap _ b); [assumption | lia | lia].
Qed.

End Adjoint.

(** ** The further properties on the layer over the integers *)

Module LinearChecksExample.
Import LinearExample.

#[export] Instance Z_semiring : ElemSemiring Z := {|
  one := 1%Z;
  elem_semiring :=
    mk_srt 0%Z 1%Z Z.add Z.mul eq
      Z.add_0_l Z.add_comm Z.add_assoc Z.mul_1_l Z.mul_0_l Z.mul_comm
      Z.mul_assoc Z.mul_add_distr_r
|}.

End LinearChecksExample.

Section LinearChecksWitnesses.
Import LinearExample LinearChecksExample.

Lemma Forward_accepts_witness :
  is_ok (Linear.Forward heap layer input) = true ↔ n_rows input = 3.
Proof.
  apply (Forward_accepts heap layer input);
    [repeat split | reflexivity | reflexivity].
Defined.

Lemma Backward_accepts_witness :
  is_ok (Linear.Backward heap layer input gy) = true ↔ n_rows gy = 2.
Proof.
  apply (Backward_accepts heap layer input gy); [repeat split | reflexivity].
Defined.

Lemma Forward_column_by_column_witness :
  ∃ output single,
    Linear.Forward heap layer input = Ok output ∧
    Linear.Forward heap layer (column input 1) = Ok single ∧
    column output 1 = single.
Proof.
  apply (Forward_column_by_column heap layer input 1);
    [repeat split | reflexivity | reflexivity | reflexivity | simpl; lia].
Defined.

Lemma Backward_column_by_column_witness :
  ∃ g single,
    Linear.Backward heap layer input gy = Ok g ∧
    Linear.Backward heap layer input (column gy 1) = Ok single ∧
    column g 1 = single.
Proof.
  apply (Backward_column_by_column heap layer input gy 1);
    [repeat split | reflexivity | reflexivity | simpl; lia].
Defined.

Lemma Gradient_returns_only_on_sizes_witness :
  Gradient_sizes layer input gy gradient0.
Proof.
  apply (Gradient_returns_only_on_sizes heap layer input gy gradient0);
    [repeat split | vm_compute; reflexivity | vm_compute; reflexivity
    | reflexivity].
Defined.

Lemma Gradient_overwrites_witness :
  Linear.Gradient heap layer input gy gradient0 =
    Ok (Linear.Evaluate decay
          (mkMat 8 1 [1; 2; 3; 4; 5; 6; 7; 8]%Z) (Gradient_buffer input gy)) ∧
  Linear.Gradient heap layer input gy (mkMat 8 1 (replicate 8 5%Z)) =
    Linear.Gradient heap layer input gy gradient0.
Proof.
  apply (Gradient_overwrites heap layer input gy gradient0
           (mkMat 8 1 (replicate 8 5%Z)) (mkMat 8 1 [1; 2; 3; 4; 5; 6; 7; 8]%Z));
    [repeat split | vm_compute; reflexivity | vm_compute; reflexivity
    | repeat split; simpl; lia | reflexivity | reflexivity | reflexivity].
Defined.

Lemma passes_read_only_the_buffer_witness :
  let base :=
    Linear.mkLinear 3 2 decay (Linear.Owned (mkMat 0 0 []))
      (Linear.Owned (mkMat 0 0 [])) (Linear.Owned (mkMat 0 0 [])) in
  let heap' := <[9 := 5%Z]> heap in
  (∀ x, Linear.Forward heap' layer x = Linear.Forward heap layer x) ∧
  (∀ x g, Linear.Backward heap' layer x g = Linear.Backward heap layer x g) ∧
  (∀ x e g, Linear.Gradient heap' layer x e g = Linear.Gradient heap layer x e g).
Proof.
  intros base.
  apply (passes_read_only_the_buffer 1 base heap 9 5%Z);
    [vm_compute; reflexivity | simpl; lia | simpl; lia].
Defined.

Lemma default_layer_throws_witness :
  is_ok (Linear.Forward heap (Linear.LinearType_default decay) (mkMat 0 1 []))
    = false ∧
  is_ok (Linear.Gradient heap (Linear.LinearType_default decay)
           (mkMat 0 1 []) (mkMat 0 1 []) (mkMat 0 1 [])) = false.
Proof.
  apply (default_layer_throws heap decay (mkMat 0 1 []) (mkMat 0 1 [])
           (mkMat 0 1 [])).
  vm_compute. reflexivity.
Defined.

Lemma Backward_adjoint_of_Forward_witness :
  ∃ output g,
    Linear.Forward heap layer input = Ok output ∧
    Linear.Backward heap layer input gy = Ok g ∧
    ∀ j, j < 2 →
      accu_upto 2 (λ i, mul (at_ gy i j) (at_ output i j)) =
      add (accu_upto 3 (λ k, mul (at_ g k j) (at_ input k j)))
          (accu_upto 2
             (λ i, mul (at_ gy i j)
                       (Linear.member_at heap (Linear.bias layer) i 0))).
Proof.
  apply (Backward_adjoint_of_Forward heap layer input gy);
    [repeat split | reflexivity | reflexivity | reflexivity | reflexivity
    | reflexivity].
Defined.

End LinearChecksWitnesses.

(** ** The binding: every way a run can end *)

Section BindingRuns.
Context {E : Type} `{Elem E} {env : AdaBoostPredictProba.Environment (E := E)}.
Import AdaBoostPredictProba.

(** X10.  However a run ends, it has changed no parameter other than
    [test] and [probabilities]. *)
Theorem binding_touches_two_parameters (w : World) (name : string) :
  name ≠ "test" → name ≠ "probabilities" →
  params (BINDING_FUNCTION w).2 !! name = params w !! name.
Proof.
  intros Ht Hp.
  unfold BINDING_FUNCTION, mbind, M_bind, mret, M_ret, require_only_one_passed,
    Get_model, move_mat, call_Dimensionality, call_Classify, run_Classify,
    through, Log_Fatal, lift, timers_Start, timers_Stop, set_mat, mbind, M_bind,
    mret, M_ret.
  repeat (case_match; simplify_eq/=; try reflexivity);
    rewrite ?lookup_insert_ne by done; reflexivity.
Qed.


(** X11.  A run returns normally only one way: both checks on the passed
    parameters succeeded, the test matrix has as many rows as the model has
    dimensions, the timer started and stopped, [Classify] was called once,
    on the test matrix, its probabilities are in the [probabilities]
    parameter, and the [test] parameter is left empty. *)
Theorem binding_returns_after_classifying (w w' : World) :
  BINDING_FUNCTION w = (Ok (), w') →
  ∃ m t p0 passed_m passed_t passed_p t1,
    RequireOnlyOnePassed (params w) ["test"] = Ok () ∧
    RequireOnlyOnePassed (params w) ["input_model"] = Ok () ∧
    params w !! "input_model" = Some (mkParam passed_m (ModelV (Some m))) ∧
    params w !! "test" = Some (mkParam passed_t (MatV t)) ∧
    params w !! "probabilities" = Some (mkParam passed_p (MatV p0)) ∧
    n_rows t = Dimensionality m ∧
    Start "adaboost_classification" (timers w) = Ok t1 ∧
    Stop "adaboost_classification" t1 = Ok (timers w') ∧
    classified w' = (classified w ++ [t])%list ∧
    params w' =
      <["probabilities" := mkParam passed_p (MatV (Classify m t).2)]>
        (<["test" := mkParam passed_t (MatV (mkMat 0 0 []))]> (params w)).
Proof.
  unfold BINDING_FUNCTION, mbind, M_bind, mret, M_ret, require_only_one_passed,
    Get_model, move_mat, call_Dimensionality, call_Classify, run_Classify,
    through, Log_Fatal, lift, timers_Start, timers_Stop, set_mat, mbind, M_bind,
    mret, M_ret.
  intros Hrun.
  repeat (case_match; simplify_eq/=).
  match goal with
  | Hp : <[_ := _]> _ !! "probabilities" = Some _ |- _ =>
      rewrite lookup_insert_ne in Hp by done
  end.
  match goal with
  | Hc : Classify _ _ = _ |- _ => eexists _, _, _, _, _, _, _; rewrite Hc
  end.
  repeat split; try eassumption;
    try (match goal with |- Ok ?u = Ok () => by destruct u end).
  match goal with
  | Hn : ¬ n_rows ?t ≠ Dimensionality ?m |- _ =>
      destruct (decide (n_rows t = Dimensionality m)); [assumption | contradiction]
  end.
Qed.

(** X12.  When one of the two checks on the passed parameters throws, the
    run ends with that exception and nothing has been touched: the test
    matrix is still in its parameter. *)
Theorem binding_stops_at_failed_check (w : World) (e : exn) :
  RequireOnlyOnePassed (params w) ["test"] = Throw e ∨
  (RequireOnlyOnePassed (params w) ["test"] = Ok () ∧
   RequireOnlyOnePassed (params w) ["input_model"] = Throw e) →
  BINDING_FUNCTION w = (Throw e, w).
Proof.
  unfold BINDING_FUNCTION, mbind, M_bind, require_only_one_passed.
  intros [Ht | [Ht Hm]].
  - by rewrite Ht.
  - by rewrite Ht, Hm.
Qed.

(** X13.  On a test matrix whose row count is not the model's
    dimensionality the run ends with the message naming the two numbers,
    and by then the test matrix has been moved out of its parameter, which
    is left empty; nothing else has changed. *)
Theorem binding_mismatch_outcome (w : World) m t passed_m passed_t :
  RequireOnlyOnePassed (params w) ["test"] = Ok () →
  RequireOnlyOnePassed (params w) ["input_model"] = Ok () →
  params w !! "input_model" = Some (mkParam passed_m (ModelV (Some m))) →
  params w !! "test" = Some (mkParam passed_t (MatV t)) →
  n_rows t ≠ Dimensionality m →
  BINDING_FUNCTION w =
  (Throw (Fatal ("Test data dimensionality (" ++ show (n_rows t) ++ ") "
                 ++ "must be the same as the model dimensionality ("
                 ++ show (Dimensionality m) ++ ")!")),
   mkWorld (<["test" := mkParam passed_t (MatV (mkMat 0 0 []))]> (params w))
     (timers w) (classified w)).
Proof.
  intros Hr1 Hr2 Hm Ht Hne.
  unfold BINDING_FUNCTION, mbind, M_bind, require_only_one_passed.
  rewrite Hr1, Hr2. unfold Get_model. rewrite Hm.
  unfold move_mat. rewrite Ht. simpl.
  rewrite decide_True by assumption. reflexivity.
Qed.

End BindingRuns.

Module BindingRunsExample.
Import LinearExample AdaBoostPredictProba BindingExample.

(** The test matrix is in its parameter but was not passed. *)
Definition unpassed : World :=
  mkWorld
    (<["test" := mkParam false (MatV good)]>
       (<["input_model" := mkParam true (ModelV (Some model))]>
          (<["probabilities" := mkParam false (MatV (mkMat 0 0 []))]> ∅)))
    [] [].

End BindingRunsExample.

Section BindingRunsWitnesses.
Import LinearExample AdaBoostPredictProba BindingExample BindingRunsExample.

Lemma binding_touches_two_parameters_witness :
  params (BINDING_FUNCTION (world good)).2 !! "input_model" =
  params (world good) !! "input_model".
Proof.
  apply (binding_touches_two_parameters (world good) "input_model"); done.
Defined.

Lemma binding_returns_after_classifying_witness :
  ∃ m t p0 passed_m passed_t passed_p t1,
    RequireOnlyOnePassed (params (world good)) ["test"] = Ok () ∧
    RequireOnlyOnePassed (params (world good)) ["input_model"] = Ok () ∧
    params (world good) !! "input_model" =
      Some (mkParam passed_m (ModelV (Some m))) ∧
    params (world good) !! "test" = Some (mkParam passed_t (MatV t)) ∧
    params (world good) !! "probabilities" = Some (mkParam passed_p (MatV p0)) ∧
    n_rows t = Dimensionality m ∧
    Start "adaboost_classification" (timers (world good)) = Ok t1 ∧
    Stop "adaboost_classification" t1 =
      Ok (timers (BINDING_FUNCTION (world good)).2) ∧
    classified (BINDING_FUNCTION (world good)).2 =
      (classified (world good) ++ [t])%list ∧
    params (BINDING_FUNCTION (world good)).2 =
      <["probabilities" := mkParam passed_p (MatV (Classify m t).2)]>
        (<["test" := mkParam passed_t (MatV (mkMat 0 0 []))]>
           (params (world good))).
Proof.
  apply (binding_returns_after_classifying (world good)
           (BINDING_FUNCTION (world good)).2).
  reflexivity.
Defined.

Lemma binding_stops_at_failed_check_witness :
  BINDING_FUNCTION unpassed =
  (Throw (Fatal "Must specify one of the parameters"), unpassed).
Proof.
  apply (binding_stops_at_failed_check unpassed). left. reflexivity.
Defined.

Lemma binding_mismatch_outcome_witness :
  BINDING_FUNCTION (world bad) =
  (Throw (Fatal ("Test data dimensionality (" ++ show 3 ++ ") "
                 ++ "must be the same as the model dimensionality ("
                 ++ show 2 ++ ")!")),
   mkWorld (<["test" := mkParam true (MatV (mkMat 0 0 []))]>
              (params (world bad))) [] []).
Proof.
  apply (binding_mismatch_outcome (world bad) model bad true true);
    [reflexivity | reflexivity | reflexivity | reflexivity | simpl; lia].
Defined.

End BindingRunsWitnesses.

(** * The numerical gradient checker of the attention tests *)

Module CheckGradient.
Section Checker.
Context {E : Type} `{Elem E}.

(** What the checker computes with besides sums and products: [-], [/],
    the constant [2] and [arma::norm]. *)
Class Arith : Type := {
  sub : E → E → E;
  quotient : E → E → E;
  two : E;
  norm : Mat E → E
}.
Context `{Arith}.

(** *** Matrix operations *)

(** The matrix with element [i] of its memory replaced. *)
Definition put (A : Mat E) (i : nat) (x : E) : Mat E :=
  mkMat (n_rows A) (n_cols A) (<[i := x]> (mem A)).

Definition out_of_bounds : exn :=
  LogicError "Mat::operator(): index out of bounds".

(** [A(i)], read, with Armadillo's bounds check. *)
Definition elem (A : Mat E) (i : nat) : result E :=
  if decide (i < n_elem A) then Ok (default zero (mem A !! i))
  else Throw out_of_bounds.

(** [A(i) = x], with the bounds check. *)
Definition set_elem (A : Mat E) (i : nat) (x : E) : result (Mat E) :=
  if decide (i < n_elem A) then Ok (put A i x) else Throw out_of_bounds.

(** [arma::zeros(r, c)]. *)
Definition zeros (r c : nat) : Mat E := generate r c (λ _ _, zero).

(** [A - B]. *)
Definition minus (A B : Mat E) : result (Mat E) :=
  if decide (n_rows A = n_rows B ∧ n_cols A = n_cols B) then
    Ok (generate (n_rows A) (n_cols A) (λ i j, sub (at_ A i j) (at_ B i j)))
  else Throw (LogicError "subtraction: incompatible matrix dimensions").

(** [A + B]. *)
Definition plus (A B : Mat E) : result (Mat E) :=
  if decide (n_rows A = n_rows B ∧ n_cols A = n_cols B) then
    Ok (generate (n_rows A) (n_cols A) (λ i j, add (at_ A i j) (at_ B i j)))
  else Throw (LogicError "addition: incompatible matrix dimensions").

(** *** The function under test *)

(** The function object, as far as the checker can tell: the matrix that
    [Parameters()] refers to, and the rest of its state. *)
Context {R : Type}.
Record FunctionType : Type := mkFunction {
  Parameters : Mat E;
  rest : R
}.

(** [function.Gradient(gradient)]: it is handed the matrix [gradient] as it
    is, returns the cost and the matrix as it leaves it, or throws; either
    way it leaves the function in some state. *)
Context (Gradient : Mat E → FunctionType → result (E * Mat E) * FunctionType).

(** One line of the checker's output. *)
Record Line : Type := mkLine {
  index : nat;
  costPlus : E;
  costMinus : E;
  est : E
}.

Record World : Type := mkWorld {
  function : FunctionType;
  cout : list Line
}.

Definition Run (A : Type) : Type := World → result A * World.

#[local] Instance Run_ret : MRet Run := λ A a w, (Ok a, w).
#[local] Instance Run_bind : MBind Run := λ A B f m w,
  match m w with
  | (Ok a, w') => f a w'
  | (Throw e, w') => (Throw e, w')
  end.

Definition lift {A} (r : result A) : Run A := λ w, (r, w).

Definition call_Gradient (gradient : Mat E) : Run (E * Mat E) :=
  λ w, let '(r, f) := Gradient gradient (function w) in (r, mkWorld f (cout w)).

(** [function.Parameters()(i)], read. *)
Definition get_parameter (i : nat) : Run E :=
  λ w, (elem (Parameters (function w)) i, w).

(** [function.Parameters()(i) = x]. *)
Definition set_parameter (i : nat) (x : E) : Run unit :=
  λ w, match set_elem (Parameters (function w)) i x with
       | Ok P => (Ok (), mkWorld (mkFunction P (rest (function w))) (cout w))
       | Throw e => (Throw e, w)
       end.

Definition print (l : Line) : Run unit :=
  λ w, (Ok (), mkWorld (function w) (cout w ++ [l])).

(** *** The checker *)

(** The matrices that live across the iterations of the loop. *)
Record Locals : Type := mkLocals {
  gradient : Mat E;
  estGradient : Mat E
}.

(** The body of the loop. *)
Definition iteration (eps : E) (i : nat) (loc : Locals) : Run Locals :=
  tmp ← get_parameter i;
  p ← get_parameter i;
  set_parameter i (add p eps);;
  '(costPlus, gradient) ← call_Gradient (gradient loc);
  p ← get_parameter i;
  set_parameter i (sub p (mul two eps));;
  '(costMinus, gradient) ← call_Gradient gradient;
  set_parameter i tmp;;
  estGradient ← lift (set_elem (estGradient loc) i
                        (quotient (sub costPlus costMinus) (mul two eps)));
  e ← lift (elem estGradient i);
  print (mkLine i costPlus costMinus e);;
  mret (mkLocals gradient estGradient).

Fixpoint loop (eps : E) (indices : list nat) (loc : Locals) : Run Locals :=
  match indices with
  | [] => mret loc
  | i :: indices => loc ← iteration eps i loc; loop eps indices loc
  end.

Definition _CheckGradient (eps : E) : Run E :=
  '(_, orgGradient) ← call_Gradient (mkMat 0 0 []);
  loc ← loop eps (seq 0 (n_elem orgGradient))
          (mkLocals (mkMat 0 0 [])
             (zeros (n_rows orgGradient) (n_cols orgGradient)));
  difference ← lift (minus orgGradient (estGradient loc));
  total ← lift (plus orgGradient (estGradient loc));
  mret (quotient (norm difference) (norm total)).

End Checker.
Arguments Arith E : clear implicits.
Arguments FunctionType E R : clear implicits.
Arguments World E R : clear implicits.
Arguments Line E : clear implicits.
Arguments Locals E : clear implicits.
End CheckGradient.

Section CheckGradientFacts.
Import CheckGradient.
Context {E : Type} `{Elem E} `{Arith E} {R : Type}.
Context (Gradient : Mat E → FunctionType E R → result (E * Mat E) * FunctionType E R).
Implicit Types (w : World E R) (loc : Locals E) (eps : E) (P : Mat E).

(** [Gradient] leaves the parameters as they are, whether it returns or
    throws. *)
Definition keeps_parameters : Prop :=
  ∀ g f, Parameters (Gradient g f).2 = Parameters f.

(** [Gradient] returns, and the cost it returns depends on the parameters
    only. *)
Definition cost_of_parameters (cost : Mat E → E) : Prop :=
  ∀ g f, ∃ g', (Gradient g f).1 = Ok (cost (Parameters f), g').

Lemma put_put_back P i x y :
  put (put (put P i x) i y) i (default zero (mem P !! i)) = P.
Proof.
  destruct P as [r c l]. unfold put. simpl. f_equal.
  rewrite !list_insert_insert_eq.
  destruct (l !! i) as [v|] eqn:Hl; simpl.
  - by apply list_insert_id.
  - apply list_insert_ge. by apply lookup_ge_None.
Qed.

Ltac run_steps :=
  unfold iteration, mbind, Run_bind, mret, Run_ret, get_parameter, set_parameter,
    call_Gradient, lift, print, elem, set_elem.

Lemma iteration_returns eps i loc w loc' w' :
  keeps_parameters →
  iteration Gradient eps i loc w = (Ok loc', w') →
  Parameters (function w') = Parameters (function w).
Proof.
  intros Hk. run_steps.
  destruct w as [[P rst] out]. simpl.
  intros Hrun.
  repeat (case_match; simplify_eq/=).
  repeat match goal with
  | Hg : Gradient ?g ?f = (_, ?f') |- _ =>
      let Hp := fresh "Hp" in
      pose proof (Hk g f) as Hp; rewrite Hg in Hp; simpl in Hp; clear Hg
  end.
  match goal with
  | Hq : Parameters ?f = put (Parameters ?f0) _ _,
    Hq0 : Parameters ?f0 = put _ _ _ |- _ => rewrite Hq, Hq0
  end.
  apply put_put_back.
Qed.

Lemma loop_returns eps indices : ∀ loc w loc' w',
  keeps_parameters →
  loop Gradient eps indices loc w = (Ok loc', w') →
  Parameters (function w') = Parameters (function w).
Proof.
  induction indices as [|i indices IH]; intros loc w loc' w' Hk; simpl.
  - unfold mret, Run_ret. by intros [= _ <-].
  - unfold mbind, Run_bind.
    destruct (iteration Gradient eps i loc w) as [[loc1|e] w1] eqn:Hi; [|done].
    intros Hl. rewrite (IH _ _ _ _ Hk Hl).
    by apply (iteration_returns eps i loc w loc1 w1).
Qed.

(** X14.  When [Gradient] leaves the parameters alone, a run of the checker
    that returns has put every parameter back to the value it had. *)
Theorem CheckGradient_restores_parameters eps w r w' :
  keeps_parameters →
  _CheckGradient Gradient eps w = (Ok r, w') →
  Parameters (function w') = Parameters (function w).
Proof.
  intros Hk. unfold _CheckGradient, mbind, Run_bind.
  unfold call_Gradient at 1.
  destruct (Gradient (mkMat 0 0 []) (function w)) as [[[c0 org]|e] f1] eqn:Hg;
    [|done].
  pose proof (Hk (mkMat 0 0 []) (function w)) as Hp. rewrite Hg in Hp.
  simpl in Hp. rewrite <- Hp.
  destruct (loop _ _ _ _ _) as [[loc1|e] w1] eqn:Hl; [|done].
  apply loop_returns in Hl; [|assumption]. simpl in Hl.
  unfold lift, mret, Run_ret.
  repeat (case_match; simplify_eq/=); intros [= _ <-]; exact Hl.
Qed.

(** X15.  The checker does not restore on the way out of an exception: when
    [Gradient] throws on the first perturbed parameters, the run ends with
    that exception in the state that call left, the first parameter still
    raised by [eps] unless [Gradient] itself put it back. *)
Theorem CheckGradient_throw_leaves_perturbed eps w c0 org f1 e f2 :
  Gradient (mkMat 0 0 []) (function w) = (Ok (c0, org), f1) →
  0 < n_elem org →
  0 < n_elem (Parameters f1) →
  Gradient (mkMat 0 0 [])
    (mkFunction (put (Parameters f1) 0 (add (default zero (mem (Parameters f1) !! 0)) eps))
       (rest f1)) = (Throw e, f2) →
  _CheckGradient Gradient eps w = (Throw e, mkWorld f2 (cout w)).
Proof.
  intros Hg Ho Hp Ht. unfold _CheckGradient, mbind, Run_bind.
  unfold call_Gradient at 1. rewrite Hg.
  destruct (n_elem org) as [|n] eqn:Hn; [lia|].
  simpl. unfold mbind, Run_bind. run_steps. simpl.
  rewrite !decide_True by assumption. simpl.
  by rewrite Ht.
Qed.

(** *** What the checker estimates *)

Section Estimate.
Context (cost : Mat E → E) (eps : E) (P : Mat E).

(** The parameters at the two calls of [Gradient] in iteration [i]: the
    second follows the first, so it is at [(p + eps) - 2 eps]. *)
Definition raised (i : nat) : Mat E :=
  put P i (add (default zero (mem P !! i)) eps).

Definition lowered (i : nat) : Mat E :=
  put P i (sub (add (default zero (mem P !! i)) eps) (mul two eps)).

Definition estimate (i : nat) : E :=
  quotient (sub (cost (raised i)) (cost (lowered i))) (mul two eps).

Definition line (i : nat) : Line E :=
  mkLine i (cost (raised i)) (cost (lowered i)) (estimate i).

Lemma Gradient_call g f :
  keeps_parameters → cost_of_parameters cost →
  ∃ g' f', Gradient g f = (Ok (cost (Parameters f), g'), f') ∧
           Parameters f' = Parameters f.
Proof.
  intros Hk Hc. destruct (Hc g f) as [g' Hg]. specialize (Hk g f).
  destruct (Gradient g f) as [r f']. simpl in *. subst r. by exists g', f'.
Qed.

Lemma put_put (A : Mat E) i x y : put (put A i x) i y = put A i y.
Proof. unfold put. simpl. by rewrite list_insert_insert_eq. Qed.

Lemma iteration_spec i loc w :
  keeps_parameters → cost_of_parameters cost →
  Parameters (function w) = P → wf P → i < n_elem P →
  i < n_elem (estGradient loc) → i < length (mem (estGradient loc)) →
  ∃ g f',
    iteration Gradient eps i loc w =
      (Ok (mkLocals g (put (estGradient loc) i (estimate i))),
       mkWorld f' (cout w ++ [line i])%list) ∧
    Parameters f' = P.
Proof.
  intros Hk Hc HP Hwf Hi Hie Hil.
  destruct w as [[P0 rst] out]. simpl in HP. subst P0.
  assert (Hlen : i < length (mem P)) by (rewrite Hwf; exact Hi).
  run_steps. simpl.
  rewrite ?decide_True by assumption. simpl.
  destruct (Gradient_call (gradient loc)
              (mkFunction (put P i (add (default zero (mem P !! i)) eps)) rst) Hk Hc)
    as (g1 & f1 & Hg1 & Hp1).
  rewrite Hg1. simpl. simpl in Hp1. rewrite Hp1. simpl.
  rewrite ?decide_True by assumption. simpl.
  rewrite list_lookup_insert_eq by assumption. simpl.
  destruct f1 as [P1 rst1]. simpl in *. subst P1.
  destruct (Gradient_call g1
              (mkFunction
                 (put (put P i (add (default zero (mem P !! i)) eps)) i
                    (sub (add (default zero (mem P !! i)) eps) (mul two eps))) rst1)
              Hk Hc)
    as (g2 & f2 & Hg2 & Hp2).
  rewrite Hg2. simpl. simpl in Hp2. rewrite Hp2. simpl.
  rewrite ?decide_True by assumption. simpl.
  rewrite ?decide_True by assumption. simpl.
  rewrite list_lookup_insert_eq by assumption. simpl.
  rewrite !put_put.
  exists g2, (mkFunction (put P i (default zero (mem P !! i))) (rest f2)).
  split; [reflexivity|]. simpl.
  destruct P as [r c l]. unfold put. simpl. f_equal.
  simpl in Hlen. apply lookup_lt_is_Some in Hlen. destruct Hlen as [v Hv].
  rewrite Hv. simpl. by apply list_insert_id.
Qed.

Lemma const_seq (a r : nat) (x : E) : (λ _ : nat, x) <$> seq a r = replicate r x.
Proof.
  revert a. induction r as [|r IH]; intros a; simpl; [done|]. by rewrite IH.
Qed.

Lemma mem_zeros r c : mem (zeros r c) = replicate (r * c) zero.
Proof.
  unfold zeros, generate. simpl. generalize 0 at 2. 
  induction c as [|c IH]; intros s; simpl.
  - by rewrite Nat.mul_0_r.
  - rewrite IH, const_seq, <- replicate_add. f_equal. lia.
Qed.

Lemma loop_spec (r c : nat) m : ∀ a loc w,
  keeps_parameters → cost_of_parameters cost →
  Parameters (function w) = P → wf P → a + m ≤ n_elem P →
  n_rows (estGradient loc) = r → n_cols (estGradient loc) = c →
  a + m = r * c →
  mem (estGradient loc) = ((estimate <$> seq 0 a) ++ replicate m zero)%list →
  ∃ g f',
    loop Gradient eps (seq a m) loc w =
      (Ok (mkLocals g (mkMat r c (estimate <$> seq 0 (a + m)))),
       mkWorld f' (cout w ++ (line <$> seq a m))%list) ∧
    Parameters f' = P.
Proof.
  induction m as [|m IH]; intros a loc w Hk Hc HP Hwf Hn Hr Hcs Hrc Hmem.
  - simpl. unfold mret, Run_ret. destruct w as [f out]. destruct loc as [g est].
    simpl in *. exists g, f. split; [|exact HP].
    rewrite Nat.add_0_r, app_nil_r. rewrite app_nil_r in Hmem.
    destruct est as [r' c' l]. simpl in *. by subst.
  - simpl. unfold mbind, Run_bind.
    destruct (iteration_spec a loc w Hk Hc HP Hwf) as (g1 & f1 & Hi & Hp1).
    + lia.
    + unfold n_elem. rewrite Hr, Hcs. lia.
    + rewrite Hmem, length_app, length_fmap, length_seq, length_replicate. lia.
    + rewrite Hi.
      destruct (IH (S a) (mkLocals g1 (put (estGradient loc) a (estimate a)))
                  (mkWorld f1 (cout w ++ [line a]))) as (g2 & f2 & Hl & Hp2);
        try assumption; try (simpl; lia).
      * cbn [estGradient put mem]. rewrite Hmem.
        replace a with (length (estimate <$> seq 0 a) + 0) at 1
          by (rewrite length_fmap, length_seq; lia).
        rewrite insert_app_r.
        rewrite seq_S, fmap_app. simpl. by rewrite <- app_assoc.
      * rewrite Hl. exists g2, f2. split; [|exact Hp2].
        cbn [cout]. rewrite <- app_assoc.
        by replace (a + S m) with (S a + m) by lia.
Qed.

End Estimate.

(** X16.  For a function whose cost depends on its parameters only, whose
    [Gradient] leaves them alone and whose gradient has no more elements
    than it has parameters: the checker returns; its estimate for element
    [i] is the quotient by [2 eps] of the cost with parameter [i] at
    [p + eps] minus the cost with it at [(p + eps) - 2 eps]; it prints one
    line for each element, in order; and it returns
    [norm (g - estimate) / norm (g + estimate)] for the gradient [g] of the
    first call. *)
Theorem CheckGradient_estimates cost eps w c0 org f1 :
  keeps_parameters → cost_of_parameters cost →
  Gradient (mkMat 0 0 []) (function w) = (Ok (c0, org), f1) →
  wf (Parameters (function w)) →
  n_elem org ≤ n_elem (Parameters (function w)) →
  let P := Parameters (function w) in
  let estimated :=
    mkMat (n_rows org) (n_cols org) (estimate cost eps P <$> seq 0 (n_elem org)) in
  ∃ difference total w',
    minus org estimated = Ok difference ∧
    plus org estimated = Ok total ∧
    _CheckGradient Gradient eps w =
      (Ok (quotient (norm difference) (norm total)), w') ∧
    cout w' = (cout w ++ (line cost eps P <$> seq 0 (n_elem org)))%list ∧
    Parameters (function w') = P.
Proof.
  intros Hk Hc Hg Hwf Hn P estimated.
  pose proof (Hk (mkMat 0 0 []) (function w)) as Hp1. rewrite Hg in Hp1.
  simpl in Hp1.
  destruct (loop_spec cost eps P (n_rows org) (n_cols org) (n_elem org) 0
              (mkLocals (mkMat 0 0 []) (zeros (n_rows org) (n_cols org)))
              (mkWorld f1 (cout w)))
    as (g & f' & Hl & Hp'); try assumption; try reflexivity.
  { cbn [estGradient]. by rewrite mem_zeros. }
  simpl in Hl.
  unfold minus, plus. subst estimated. simpl.
  rewrite !decide_True by done.
  eexists _, _, (mkWorld f' _). split; [reflexivity|]. split; [reflexivity|].
  split; [|split; [reflexivity | exact Hp']].
  unfold _CheckGradient, mbind, Run_bind. unfold call_Gradient at 1.
  rewrite Hg, Hl. unfold lift, minus, plus, mret, Run_ret. simpl.
  rewrite !decide_True by done. reflexivity.
Qed.

End CheckGradientFacts.

Module CheckGradientExample.
Import LinearExample CheckGradient.

(** Whole numbers, with the sum of the absolute values for the norm. *)
#[export] Instance Z_arith : Arith Z := {|
  sub := Z.sub;
  quotient := Z.quot;
  two := 2%Z;
  norm := λ A, foldr (λ x acc, (Z.abs x + acc)%Z) 0%Z (mem A)
|}.

(** The sum of the squares of the parameters. *)
Definition squares (P : Mat Z) : Z := foldr (λ x acc, (x * x + acc)%Z) 0%Z (mem P).

Definition doubled (P : Mat Z) : Mat Z :=
  mkMat (n_elem P) 1 ((λ x, (2 * x)%Z) <$> mem P).

(** A function that counts the calls of its [Gradient]. *)
Definition counting (g : Mat Z) (f : FunctionType Z nat)
  : result (Z * Mat Z) * FunctionType Z nat :=
  (Ok (squares (Parameters f), doubled (Parameters f)),
   mkFunction (Parameters f) (S (rest f))).

(** The same, but it gives up on a first parameter above 3. *)
Definition bounded (g : Mat Z) (f : FunctionType Z nat)
  : result (Z * Mat Z) * FunctionType Z nat :=
  if decide (3 < default 0 (mem (Parameters f) !! 0%nat))%Z
  then (Throw (LogicError "parameter out of range"), f)
  else counting g f.

Definition start : World Z nat :=
  mkWorld (mkFunction (mkMat 2 1 [3; 5]%Z) 0) [].

Example counting_run :
  _CheckGradient counting 1%Z start =
  (Ok 0%Z,
   mkWorld (mkFunction (mkMat 2 1 [3; 5]%Z) 5)
     [mkLine 0 41%Z 29%Z 6%Z; mkLine 1 45%Z 25%Z 10%Z]).
Proof. reflexivity. Qed.

Example bounded_run :
  _CheckGradient bounded 1%Z start =
  (Throw (LogicError "parameter out of range"),
   mkWorld (mkFunction (mkMat 2 1 [4; 5]%Z) 1) []).
Proof. reflexivity. Qed.

End CheckGradientExample.

Section CheckGradientWitnesses.
Import LinearExample CheckGradient CheckGradientExample.

Lemma CheckGradient_restores_parameters_witness :
  Parameters (function (_CheckGradient counting 1%Z start).2) =
  Parameters (function start).
Proof.
  apply (CheckGradient_restores_parameters counting 1%Z start 0%Z
           (_CheckGradient counting 1%Z start).2).
  - intros g f. reflexivity.
  - reflexivity.
Defined.

Lemma CheckGradient_throw_leaves_perturbed_witness :
  _CheckGradient bounded 1%Z start =
  (Throw (LogicError "parameter out of range"),
   mkWorld (mkFunction (mkMat 2 1 [4; 5]%Z) 1) []).
Proof.
  apply (CheckGradient_throw_leaves_perturbed bounded 1%Z start
           34%Z (mkMat 2 1 [6; 10]%Z) (mkFunction (mkMat 2 1 [3; 5]%Z) 1)).
  - reflexivity.
  - vm_compute. lia.
  - vm_compute. lia.
  - reflexivity.
Defined.

Lemma CheckGradient_estimates_witness :
  ∃ difference total w',
    minus (mkMat 2 1 [6; 10]%Z)
      (mkMat 2 1 (estimate squares 1%Z (mkMat 2 1 [3; 5]%Z) <$> seq 0 2)) =
      Ok difference ∧
    plus (mkMat 2 1 [6; 10]%Z)
      (mkMat 2 1 (estimate squares 1%Z (mkMat 2 1 [3; 5]%Z) <$> seq 0 2)) =
      Ok total ∧
    _CheckGradient counting 1%Z start =
      (Ok (quotient (norm difference) (norm total)), w') ∧
    cout w' =
      (cout start ++ (line squares 1%Z (mkMat 2 1 [3; 5]%Z) <$> seq 0 2))%list ∧
    Parameters (function w') = mkMat 2 1 [3; 5]%Z.
Proof.
  apply (CheckGradient_estimates counting squares 1%Z start
           34%Z (mkMat 2 1 [6; 10]%Z) (mkFunction (mkMat 2 1 [3; 5]%Z) 1)).
  - intros g f. reflexivity.
  - intros g f. eexists. reflexivity.
  - reflexivity.
  - reflexivity.
  - vm_compute. lia.
Defined.

End CheckGradientWitnesses.
